(** * Dinar media-deletion relay: a shallow embedding of [index.js]

    The repository is one Express server in three revisions.  The second
    document of [src/index.js] and [src/unnamed/part_000] are two revisions
    of the multi-account handler: they share [ACCOUNTS], [DEFAULT_ACCOUNT]
    and [parseFromUrl] verbatim and differ in [getCredsForCloud], in the way
    the credential check is written and in the text of the credentials
    error.  They are embedded as [IndexJs] and [Part000].  The first document
    of [src/index.js] is the older single-account server, embedded as
    [Legacy].

    Modelling conventions.
    - A JavaScript value coming from a JSON body or from [JSON.parse] is a
      [JsVal].  An object is the finite map of its own properties; a
      property read that finds no own property goes on to the prototype
      chain, that is to the members of the built-in prototypes
      ([constructor], [toString], [__proto__], ...), listed below as of
      ECMAScript 2024.
    - A string is held as the bytes of its UTF-8 encoding (a surrogate that
      is not part of a pair as the three bytes of its code).  The pattern the
      program uses consists of ASCII characters and the complement of one,
      so matching bytes and matching UTF-16 code units find the same
      matches.
    - A number is identified with its canonical rendering
      ([Number::toString]): the program only tests numbers for truthiness
      and renders them into strings.
    - Conversions to string throw where the language makes them throw; the
      messages of the errors the engine raises are worded as V8 words them.
    - [JSON.parse], [axios.delete] and [cloudinary.uploader.destroy] are not
      code of this repository; they are parameters of the definitions that
      use them.
    - [req.body] is the object the JSON body parser produced. *)

From Stdlib Require Import Ascii String.
From stdpp Require Import gmap strings list fin_maps pretty.

Set Warnings "-register-all".
Open Scope string_scope.

(** ** JavaScript values *)

(** The built-in prototypes a value of a JSON document inherits from. *)
Inductive Proto : Type :=
| ObjectPrototype
| ArrayPrototype
| StringPrototype
| NumberPrototype
| BooleanPrototype.

Inductive JsVal : Type :=
| JUndefined
| JNull
| JBool (b : bool)
| JNum (rendering : string)
| JStr (s : string)
| JArr (elems : list JsVal)
| JObj (props : gmap string JsVal)
(** What a property read finds on the prototype chain: the member [key] of
    the built-in prototype [owner], a function; under the key [__proto__],
    the prototype object [owner] itself. *)
| JBuiltin (owner : Proto) (key : string).

(** [ToBoolean]: [undefined], [null], [false], [0], [NaN] and the empty
    string are falsy, everything else (every array, object and function
    too) is truthy. *)
Definition truthy (v : JsVal) : bool :=
  match v with
  | JUndefined | JNull => false
  | JBool b => b
  | JNum r => negb (String.eqb r "0" || String.eqb r "NaN")
  | JStr s => negb (String.eqb s "")
  | JArr _ | JObj _ | JBuiltin _ _ => true
  end.

(** [a || b] on values. *)
Definition js_or (a b : JsVal) : JsVal := if truthy a then a else b.

(** ** Thrown errors

    What the [catch] block of the handler reads from a thrown value:
    [err?.response?.data] and [err.message]. *)
Record JsError : Type := mkError {
  err_response_data : JsVal;
  err_message : JsVal
}.

(** A computation that returns an [A] or throws. *)
Definition M (A : Type) : Type := JsError + A.

Definition ret {A} (a : A) : M A := inr a.

Definition throw {A} (e : JsError) : M A := inl e.

Definition bind {A B} (m : M A) (f : A -> M B) : M B :=
  match m with
  | inl e => inl e
  | inr a => f a
  end.

Declare Scope js_scope.
Delimit Scope js_scope with js.
Notation "'let*' x ':=' c1 'in' c2" := (bind c1 (fun x => c2))
  (at level 10, x name, c1 at level 100, c2 at level 200) : js_scope.
Open Scope js_scope.

(** A [TypeError] the engine raises: it has a message and no [response]. *)
Definition TypeError (message : string) : JsError :=
  mkError JUndefined (JStr message).

(** ** Conversion to string *)

(** [Array.prototype.join] with separator [sep], on converted elements. *)
Fixpoint join (sep : string) (parts : list string) : string :=
  match parts with
  | [] => ""
  | [p] => p
  | p :: rest => p +:+ sep +:+ join sep rest
  end.

(** The name of the function a prototype holds under [key]: a constructor
    is named after its class. *)
Definition builtin_name (owner : Proto) (key : string) : string :=
  if String.eqb key "constructor" then
    match owner with
    | ObjectPrototype => "Object"
    | ArrayPrototype => "Array"
    | StringPrototype => "String"
    | NumberPrototype => "Number"
    | BooleanPrototype => "Boolean"
    end
  else key.

(** [String(v)] for a built-in: the source text of a function, and for a
    prototype object what its own [toString] makes of it. *)
Definition builtin_text (owner : Proto) (key : string) : string :=
  if String.eqb key "__proto__" then
    match owner with
    | ObjectPrototype => "[object Object]"
    | ArrayPrototype | StringPrototype => ""
    | NumberPrototype => "0"
    | BooleanPrototype => "false"
    end
  else "function " +:+ builtin_name owner key +:+ "() { [native code] }".

(** [String(v)], which is also the conversion a template literal and a
    property key apply.  Arrays are joined with commas, [undefined] and
    [null] elements rendering as the empty string.  An object converts
    through its [toString]: the inherited one gives "[object Object]"; an
    own property [toString] of a JSON object is never a function, the
    inherited [valueOf] returns the object itself, and the conversion throws
    a [TypeError]. *)
Fixpoint ToString (v : JsVal) : M string :=
  match v with
  | JUndefined => ret "undefined"
  | JNull => ret "null"
  | JBool true => ret "true"
  | JBool false => ret "false"
  | JNum r => ret r
  | JStr s => ret s
  | JArr elems =>
      let* parts :=
        (fix each (l : list JsVal) : M (list string) :=
           match l with
           | [] => ret []
           | e :: l' =>
               let* p := match e with
                         | JUndefined | JNull => ret ""
                         | _ => ToString e
                         end in
               let* ps := each l' in
               ret (p :: ps)
           end) elems in
      ret (join "," parts)
  | JObj props =>
      match props !! "toString" with
      | Some _ => throw (TypeError "Cannot convert object to primitive value")
      | None => ret "[object Object]"
      end
  | JBuiltin owner key => ret (builtin_text owner key)
  end.

Definition Proto_eqb (p q : Proto) : bool :=
  match p, q with
  | ObjectPrototype, ObjectPrototype
  | ArrayPrototype, ArrayPrototype
  | StringPrototype, StringPrototype
  | NumberPrototype, NumberPrototype
  | BooleanPrototype, BooleanPrototype => true
  | _, _ => false
  end.

(** [a === b].  Arrays and objects compare by identity; the two sides of
    every comparison in this program are distinct objects, hence [false].
    Built-ins are the same when they are the same member of the same
    prototype. *)
Definition strict_equals (a b : JsVal) : bool :=
  match a, b with
  | JUndefined, JUndefined => true
  | JNull, JNull => true
  | JBool x, JBool y => Bool.eqb x y
  | JNum x, JNum y => String.eqb x y && negb (String.eqb x "NaN")
  | JStr x, JStr y => String.eqb x y
  | JBuiltin p x, JBuiltin q y => Proto_eqb p q && String.eqb x y
  | _, _ => false
  end.

(** ** Strings as UTF-8 *)

Definition byte (n : N) : ascii := ascii_of_N n.

(** The UTF-8 encoding of a code point below U+10000. *)
Definition utf8 (cp : N) : string :=
  if (cp <? 128)%N then String (byte cp) ""
  else if (cp <? 2048)%N then
    String (byte (192 + cp / 64)) (String (byte (128 + cp mod 64)) "")
  else
    String (byte (224 + cp / 4096))
      (String (byte (128 + (cp / 64) mod 64))
         (String (byte (128 + cp mod 64)) "")).

(** The UTF-16 code units of a string, each as the string that holds it
    alone.  A character of up to three bytes is one code unit; a character
    of four bytes is a surrogate pair. *)
Fixpoint code_units (s : string) : list string :=
  match s with
  | "" => []
  | String a r =>
      let n := N_of_ascii a in
      if (n <? 192)%N then String a "" :: code_units r
      else
        match r with
        | "" => [String a ""]
        | String b r1 =>
            if (n <? 224)%N then String a (String b "") :: code_units r1
            else
              match r1 with
              | "" => [String a (String b "")]
              | String c r2 =>
                  if (n <? 240)%N then
                    String a (String b (String c "")) :: code_units r2
                  else
                    match r2 with
                    | "" => [String a (String b (String c ""))]
                    | String d r3 =>
                        let cp := ((n mod 8) * 262144
                                   + (N_of_ascii b mod 64) * 4096
                                   + (N_of_ascii c mod 64) * 64
                                   + N_of_ascii d mod 64 - 65536)%N in
                        utf8 (55296 + cp / 1024) :: utf8 (56320 + cp mod 1024)
                        :: code_units r3
                    end
              end
        end
  end.

(** ** Property reads *)

(** The member names of the built-in prototypes ([__proto__], the accessor
    of [Object.prototype], apart). *)
Definition members (p : Proto) : list string :=
  match p with
  | ObjectPrototype =>
      ["constructor"; "__defineGetter__"; "__defineSetter__"; "hasOwnProperty";
       "__lookupGetter__"; "__lookupSetter__"; "isPrototypeOf";
       "propertyIsEnumerable"; "toString"; "valueOf"; "toLocaleString"]
  | ArrayPrototype =>
      ["constructor"; "at"; "concat"; "copyWithin"; "fill"; "find";
       "findIndex"; "findLast"; "findLastIndex"; "lastIndexOf"; "pop"; "push";
       "reverse"; "shift"; "unshift"; "slice"; "sort"; "splice"; "includes";
       "indexOf"; "join"; "keys"; "entries"; "values"; "forEach"; "filter";
       "flat"; "flatMap"; "map"; "every"; "some"; "reduce"; "reduceRight";
       "toLocaleString"; "toString"; "toReversed"; "toSorted"; "toSpliced";
       "with"]
  | StringPrototype =>
      ["constructor"; "anchor"; "at"; "big"; "blink"; "bold"; "charAt";
       "charCodeAt"; "codePointAt"; "concat"; "endsWith"; "fontcolor";
       "fontsize"; "fixed"; "includes"; "indexOf"; "isWellFormed"; "italics";
       "lastIndexOf"; "link"; "localeCompare"; "match"; "matchAll";
       "normalize"; "padEnd"; "padStart"; "repeat"; "replace"; "replaceAll";
       "search"; "slice"; "small"; "split"; "strike"; "sub"; "substr";
       "substring"; "sup"; "startsWith"; "toString"; "toWellFormed"; "trim";
       "trimStart"; "trimLeft"; "trimEnd"; "trimRight"; "toLocaleLowerCase";
       "toLocaleUpperCase"; "toLowerCase"; "toUpperCase"; "valueOf"]
  | NumberPrototype =>
      ["constructor"; "toExponential"; "toFixed"; "toPrecision"; "toString";
       "valueOf"; "toLocaleString"]
  | BooleanPrototype => ["constructor"; "toString"; "valueOf"]
  end.

(** The names every object answers to without having them as properties of
    its own. *)
Definition Object_prototype_names : list string :=
  "__proto__" :: members ObjectPrototype.

Definition named_in (names : list string) (key : string) : bool :=
  existsb (String.eqb key) names.

(** [trimLeft] and [trimRight] name the functions [trimStart] and
    [trimEnd]. *)
Definition canonical (key : string) : string :=
  if String.eqb key "trimLeft" then "trimStart"
  else if String.eqb key "trimRight" then "trimEnd"
  else key.

(** What a value whose prototype is [p] inherits under [key]: a member of
    [p], else [p] itself under [__proto__], else a member of
    [Object.prototype]; [undefined] when the chain has no such member. *)
Definition inherited (p : Proto) (key : string) : JsVal :=
  if named_in (members p) key then JBuiltin p (canonical key)
  else if String.eqb key "__proto__" then JBuiltin p "__proto__"
  else if named_in (members ObjectPrototype) key then JBuiltin ObjectPrototype key
  else JUndefined.

(** The index a property key denotes in a string or array of length [len]:
    the [i < len] whose decimal rendering is [key]. *)
Definition array_index (key : string) (len : nat) : option nat :=
  List.find (fun i => String.eqb (pretty i) key) (seq 0 len).

(** The own property [key] of [v], if it has one: the properties of an
    object, the elements and the length of an array, the code units and the
    length of a string. *)
Definition own_prop (v : JsVal) (key : string) : option JsVal :=
  match v with
  | JObj props => props !! key
  | JArr elems =>
      if String.eqb key "length" then Some (JNum (pretty (length elems)))
      else match array_index key (length elems) with
           | Some i => elems !! i
           | None => None
           end
  | JStr s =>
      if String.eqb key "length" then Some (JNum (pretty (length (code_units s))))
      else match array_index key (length (code_units s)) with
           | Some i => JStr <$> code_units s !! i
           | None => None
           end
  | _ => None
  end.

Definition proto_of (v : JsVal) : option Proto :=
  match v with
  | JObj _ => Some ObjectPrototype
  | JArr _ => Some ArrayPrototype
  | JStr _ => Some StringPrototype
  | JNum _ => Some NumberPrototype
  | JBool _ => Some BooleanPrototype
  | JUndefined | JNull | JBuiltin _ _ => None
  end.

(** [v[key]] for a [v] that is neither [null] nor [undefined]: the own
    property, else what the prototype chain has.  The properties of a
    built-in itself are not modelled (the read gives [undefined]): the
    program reads [api_key] and [api_secret] from what it finds in the
    table, names that no built-in has. *)
Definition member (v : JsVal) (key : string) : JsVal :=
  match own_prop v key with
  | Some x => x
  | None =>
      match proto_of v with
      | Some p => inherited p key
      | None => JUndefined
      end
  end.

(** The name V8 puts into the message of a failed read, when it has one: a
    primitive key as its string, an object that converts through the
    inherited [toString] by its class; the key's own conversion is not
    run, and a key of another kind is not named. *)
Definition key_text (key : JsVal) : option string :=
  match key with
  | JUndefined => Some "undefined"
  | JNull => Some "null"
  | JBool true => Some "true"
  | JBool false => Some "false"
  | JNum r => Some r
  | JStr s => Some s
  | JArr _ => None
  | JObj props =>
      match props !! "toString", props !! "constructor" with
      | None, None => Some "#<Object>"
      | _, _ => None
      end
  | JBuiltin owner key =>
      if String.eqb key "__proto__" then None else Some (builtin_text owner key)
  end.

(** The [TypeError] raised by a property read on [null] or [undefined]
    (message as V8 words it). *)
Definition TypeError_read (v : JsVal) (key : option string) : JsError :=
  TypeError ("Cannot read properties of "
             +:+ (match v with JNull => "null" | _ => "undefined" end)
             +:+ match key with
                 | Some name => " (reading '" +:+ name +:+ "')"
                 | None => ""
                 end).

(** [v.key]: throws on [null] and [undefined]. *)
Definition js_get (v : JsVal) (key : string) : M JsVal :=
  match v with
  | JUndefined | JNull => throw (TypeError_read v (Some key))
  | _ => ret (member v key)
  end.

(** [v[key]] for a computed key: the object is checked first, then the key
    is converted. *)
Definition js_index (v key : JsVal) : M JsVal :=
  match v with
  | JUndefined | JNull => throw (TypeError_read v (key_text key))
  | _ => let* name := ToString key in ret (member v name)
  end.

(** A destructured field of the request body, [undefined] when absent.  The
    fields the handlers destructure are not names of inherited members, so
    the read stops at the own properties. *)
Definition field (body : gmap string JsVal) (key : string) : JsVal :=
  default JUndefined (body !! key).

(** ** [String.prototype.trim] *)

(** The code points the language counts as white space or line
    terminators: TAB, LF, VT, FF, CR, SP, NBSP, the other space separators
    of Unicode, LS, PS and ZWNBSP. *)
Definition white_space_code_points : list N :=
  [9; 10; 11; 12; 13; 32; 160; 5760;
   8192; 8193; 8194; 8195; 8196; 8197; 8198; 8199; 8200; 8201; 8202;
   8232; 8233; 8239; 8287; 12288; 65279]%N.

Definition white_space : list string := utf8 <$> white_space_code_points.

(** The rest of [s] after the prefix [p], when [s] starts with [p]. *)
Fixpoint strip_prefix (p s : string) : option string :=
  match p with
  | "" => Some s
  | String a p' =>
      match s with
      | String b s' => if Ascii.eqb a b then strip_prefix p' s' else None
      | "" => None
      end
  end.

(** The rest of [s] after one leading member of [spaces], if it starts with
    one. *)
Fixpoint skip_one (spaces : list string) (s : string) : option string :=
  match spaces with
  | [] => None
  | w :: spaces' =>
      match strip_prefix w s with
      | Some rest => Some rest
      | None => skip_one spaces' s
      end
  end.

(** Leading members of [spaces] removed, as long as there are any; every
    removal shortens the string, so [fuel] of its length is enough. *)
Fixpoint skip_all (spaces : list string) (fuel : nat) (s : string) : string :=
  match fuel with
  | O => s
  | S fuel' =>
      match skip_one spaces s with
      | Some rest => skip_all spaces fuel' rest
      | None => s
      end
  end.

Definition trimStart (s : string) : string :=
  skip_all white_space (String.length s) s.

(** Trailing white space is leading white space of the reversed string, each
    character's bytes reversed. *)
Definition trimEnd (s : string) : string :=
  String.rev (skip_all (String.rev <$> white_space) (String.length s) (String.rev s)).

Definition trim (s : string) : string := trimEnd (trimStart s).
(** ** Regular expressions

    The fragment of ECMAScript patterns the program uses: characters,
    negated one-character classes, concatenation, ordered alternation,
    greedy [+] and numbered capturing groups, with the backtracking
    semantics of the language (continuation-passing matchers). *)

Inductive regex : Type :=
| Eps
| Chr (c : ascii)
| NotChr (c : ascii)
| Cat (r1 r2 : regex)
| Alt (r1 r2 : regex)
| Plus (r : regex)
| Group (n : nat) (r : regex).

(** A literal run of characters. *)
Fixpoint lit (s : string) : regex :=
  match s with
  | "" => Eps
  | String c s' => Cat (Chr c) (lit s')
  end.

(** Captured substrings, by group number (0 is the whole match). *)
Abbreviation captures := (gmap nat string).

(** What a matcher consumed when it went from input [s] to the rest
    [rest]. *)
Definition consumed (s rest : string) : string :=
  String.substring 0 (String.length s - String.length rest) s.

Section Matcher.
Context {R : Type}.

Local Abbreviation continuation := (string -> captures -> option R).

(** Further greedy iterations of a repeated matcher [m]; an iteration that
    consumes nothing is rejected.  [fuel] bounds the number of iterations
    and the length of the input is always enough. *)
Fixpoint repeat_matcher
    (m : string -> captures -> continuation -> option R)
    (k : continuation) (fuel : nat) (s : string) (caps : captures)
    : option R :=
  match fuel with
  | O => k s caps
  | S fuel' =>
      match m s caps (fun s1 c1 =>
               if Nat.ltb (String.length s1) (String.length s)
               then repeat_matcher m k fuel' s1 c1
               else None) with
      | Some x => Some x
      | None => k s caps
      end
  end.

Fixpoint rmatch (r : regex) (s : string) (caps : captures)
    (k : continuation) : option R :=
  match r with
  | Eps => k s caps
  | Chr c =>
      match s with
      | String a s' => if Ascii.eqb a c then k s' caps else None
      | "" => None
      end
  | NotChr c =>
      match s with
      | String a s' => if Ascii.eqb a c then None else k s' caps
      | "" => None
      end
  | Cat r1 r2 => rmatch r1 s caps (fun s1 c1 => rmatch r2 s1 c1 k)
  | Alt r1 r2 =>
      match rmatch r1 s caps k with
      | Some x => Some x
      | None => rmatch r2 s caps k
      end
  | Plus r1 =>
      rmatch r1 s caps (fun s1 c1 =>
        repeat_matcher (rmatch r1) k (String.length s1) s1 c1)
  | Group n r1 =>
      rmatch r1 s caps (fun s1 c1 => k s1 (<[n := consumed s s1]> c1))
  end.
End Matcher.

(** [RegExp.prototype.exec] for a pattern without flags: the match at the
    leftmost position where the pattern matches, as the map from group
    number to captured text. *)
Fixpoint exec (r : regex) (s : string) : option captures :=
  match rmatch r s ∅ (fun rest caps => Some (<[0 := consumed s rest]> caps)) with
  | Some m => Some m
  | None =>
      match s with
      | "" => None
      | String _ s' => exec r s'
      end
  end.

(** [s.match(r)] for a string [s]. *)
Definition String_match (s : string) (r : regex) : option captures := exec r s.

(** An element of the match array. *)
Definition match_elem (m : captures) (i : nat) : JsVal :=
  match m !! i with
  | Some s => JStr s
  | None => JUndefined
  end.

(** ** [parseFromUrl] *)

(** [/res\.cloudinary\.com\/([^/]+)\/(image|video)\/([^/]+)\//] *)
Definition secure_url_pattern : regex :=
  Cat (lit "res.cloudinary.com/")
 (Cat (Group 1 (Plus (NotChr "/")))
 (Cat (Chr "/")
 (Cat (Group 2 (Alt (lit "image") (lit "video")))
 (Cat (Chr "/")
 (Cat (Group 3 (Plus (NotChr "/")))
      (Chr "/")))))).

(** The object [parseFromUrl] returns: [{}] has the three properties
    [undefined]. *)
Record Parsed : Type := mkParsed {
  parsed_cloud_name : JsVal;
  parsed_resource_type : JsVal;
  parsed_type : JsVal
}.

Definition empty_parsed : Parsed := mkParsed JUndefined JUndefined JUndefined.

Definition parseFromUrl (secureUrl : JsVal) : Parsed :=
  let m := match secureUrl with (* typeof secureUrl === "string" ? ... : null *)
           | JStr s => String_match s secure_url_pattern
           | _ => None
           end in
  match m with
  | None => empty_parsed
  | Some m =>
      let cloud_name := match_elem m 1 in
      let resource_type := match_elem m 2 in
      let type := match_elem m 3 in
      mkParsed cloud_name resource_type type
  end.

(** ** Process state and effects *)

(** [process.env], as far as the server reads it. *)
Record Env : Type := mkEnv {
  CLOUDINARY_ACCOUNTS_JSON : option string;
  CLOUD_NAME : option string;
  CLOUDINARY_API_KEY : option string;
  CLOUDINARY_API_SECRET : option string
}.

(** An environment variable is a string, or [undefined] when unset. *)
Definition env_value (o : option string) : JsVal :=
  match o with
  | Some s => JStr s
  | None => JUndefined
  end.

(** The credential objects [{ cloud_name, api_key, api_secret }]. *)
Record Creds : Type := mkCreds {
  creds_cloud_name : JsVal;
  creds_api_key : JsVal;
  creds_api_secret : JsVal
}.

(** One [console.error(label, detail)] line. *)
Record LogLine : Type := mkLog {
  log_label : string;
  log_detail : JsVal
}.

(** One [axios.delete(endpoint, { auth, data })] request. *)
Record OutboundCall : Type := mkCall {
  endpoint : string;
  auth_username : JsVal;
  auth_password : JsVal;
  data_public_ids : list string;
  data_invalidate : bool
}.

(** What one run of the handler does: the response it sends, the outbound
    requests it issued and the lines it logged. *)
Record Outcome : Type := mkOutcome {
  status : nat;
  payload : JsVal;
  calls : list OutboundCall;
  logged : list LogLine
}.

(** [{ error: msg }] *)
Definition error_body (msg : string) : JsVal := JObj {[ "error" := JStr msg ]}.

(** ** Start-up: [ACCOUNTS] and [DEFAULT_ACCOUNT] *)

Section Startup.
(** [JSON.parse] applied to a string: the parsed value, or the
    [SyntaxError] it throws. *)
Variable JSON_parse : string -> M JsVal.

(** The immediately-invoked initialiser of [ACCOUNTS], with the line it
    logs when the [catch] block runs. *)
Definition ACCOUNTS_of_env (env : Env) : JsVal * list LogLine :=
  match (let* text := ToString (js_or (env_value (CLOUDINARY_ACCOUNTS_JSON env))
                                      (JStr "{}")) in
         JSON_parse text) with
  | inr parsed => (parsed, [])
  | inl e =>
      (JObj ∅,
       [mkLog "Failed to parse CLOUDINARY_ACCOUNTS_JSON:" (err_message e)])
  end.
End Startup.

Definition DEFAULT_ACCOUNT_of_env (env : Env) : Creds :=
  mkCreds (env_value (CLOUD_NAME env))
          (env_value (CLOUDINARY_API_KEY env))
          (env_value (CLOUDINARY_API_SECRET env)).

(** ** The request handler: the parts both revisions share *)

(** "Derive missing fields from secure_url if present": the new values of
    [cloud_name], [resource_type] and [type]. *)
Definition derive (cloud_name secure_url resource_type type : JsVal)
    : JsVal * JsVal * JsVal :=
  if (negb (truthy cloud_name) || negb (truthy resource_type)
      || negb (truthy type)) && truthy secure_url
  then
    let parsed := parseFromUrl secure_url in
    (js_or cloud_name (parsed_cloud_name parsed),
     js_or resource_type (parsed_resource_type parsed),
     js_or type (parsed_type parsed))
  else (cloud_name, resource_type, type).

(** [invalidate !== false] *)
Definition shouldInvalidate (invalidate : JsVal) : bool :=
  negb (strict_equals invalidate (JBool false)).

(** The admin-API address of a cloud, a resource type and a type. *)
Definition endpoint_url (cloud_name resource_type type : string) : string :=
  "https://api.cloudinary.com/v1_1/" +:+ cloud_name
  +:+ "/resources/" +:+ resource_type +:+ "/" +:+ type.

(** The endpoint template literal: its three substitutions are converted to
    strings from left to right. *)
Definition endpoint_of (creds : Creds) (resource_type type : JsVal) : M string :=
  let* cloud_name := ToString (creds_cloud_name creds) in
  let* resource_type := ToString resource_type in
  let* type := ToString type in
  ret (endpoint_url cloud_name resource_type type).

(** The [catch] block of the handler; [issued] are the requests sent before
    the error was thrown. *)
Definition caught (err : JsError) (issued : list OutboundCall) : Outcome :=
  let detail := js_or (err_response_data err) (err_message err) in
  mkOutcome 500 (error_body "Failed to delete media") issued
            [mkLog "Error deleting media:" detail].

(** ** [src/index.js], second document *)

Module IndexJs.
Section Server.
Variable ACCOUNTS : JsVal.
Variable DEFAULT_ACCOUNT : Creds.
(** [await axios.delete(...)]: the [data] of the response, or the error
    the promise rejects with. *)
Variable axios_delete : OutboundCall -> M JsVal.

Definition getCredsForCloud (cloud_name : JsVal) : M (option Creds) :=
  if negb (truthy cloud_name) then ret None
  else
    let* entry := js_index ACCOUNTS cloud_name in
    if truthy entry then
      let* entry1 := js_index ACCOUNTS cloud_name in
      let* api_key := js_get entry1 "api_key" in
      let* entry2 := js_index ACCOUNTS cloud_name in
      let* api_secret := js_get entry2 "api_secret" in
      ret (Some (mkCreds cloud_name api_key api_secret))
    else if truthy (creds_cloud_name DEFAULT_ACCOUNT)
            && strict_equals (creds_cloud_name DEFAULT_ACCOUNT) cloud_name
    then ret (Some (mkCreds cloud_name (creds_api_key DEFAULT_ACCOUNT)
                            (creds_api_secret DEFAULT_ACCOUNT)))
    else ret None.

Definition credentials_error : string :=
  "No credentials for this cloud. Provide 'cloud_name' or 'secure_url' (and configure CLOUDINARY_ACCOUNTS_JSON / default envs).".

(** [getCredsForCloud(cloud_name) || (DEFAULT_ACCOUNT.cloud_name ? DEFAULT_ACCOUNT : null)] *)
Definition select_creds (cloud_name : JsVal) : M (option Creds) :=
  let* found := getCredsForCloud cloud_name in
  match found with
  | Some creds => ret (Some creds)
  | None =>
      ret (if truthy (creds_cloud_name DEFAULT_ACCOUNT)
           then Some DEFAULT_ACCOUNT else None)
  end.

(** [!creds || !creds.api_key || !creds.api_secret || !creds.cloud_name] *)
Definition unusable (creds : option Creds) : bool :=
  match creds with
  | None => true
  | Some c =>
      negb (truthy (creds_api_key c)) || negb (truthy (creds_api_secret c))
      || negb (truthy (creds_cloud_name c))
  end.

(** [app.post("/deleteMedia", ...)] applied to [req.body]. *)
Definition deleteMedia (body : gmap string JsVal) : Outcome :=
  let public_id := field body "public_id" in
  let cloud_name := field body "cloud_name" in
  let secure_url := field body "secure_url" in
  let resource_type := field body "resource_type" in
  let type := field body "type" in
  let invalidate := field body "invalidate" in
  if negb (truthy public_id)
  then mkOutcome 400 (error_body "public_id is required") [] []
  else
    match ToString public_id with
    | inl err => caught err []
    | inr text =>
        let public_id := trim text in
        let '(cloud_name, resource_type, type) :=
          derive cloud_name secure_url resource_type type in
        let resource_type := js_or resource_type (JStr "image") in
        let type := js_or type (JStr "upload") in
        let shouldInvalidate := shouldInvalidate invalidate in
        match select_creds cloud_name with
        | inl err => caught err []
        | inr creds =>
            if unusable creds
            then mkOutcome 400 (error_body credentials_error) [] []
            else
              match creds with
              | Some c =>
                  match endpoint_of c resource_type type with
                  | inl err => caught err []
                  | inr endpoint =>
                      let call :=
                        mkCall endpoint (creds_api_key c) (creds_api_secret c)
                               [public_id] shouldInvalidate in
                      match axios_delete call with
                      | inl err => caught err [call]
                      | inr data => mkOutcome 200 data [call] []
                      end
                  end
              | None => caught (TypeError_read JNull (Some "cloud_name")) []
              end
        end
    end.
End Server.
End IndexJs.

(** ** [src/unnamed/part_000] *)

Module Part000.
Section Server.
Variable ACCOUNTS : JsVal.
Variable DEFAULT_ACCOUNT : Creds.
Variable axios_delete : OutboundCall -> M JsVal.

Definition getCredsForCloud (cloud_name : JsVal) : M (option Creds) :=
  if negb (truthy cloud_name) then ret None
  else
    let* entry := js_index ACCOUNTS cloud_name in
    if truthy entry then
      let* entry1 := js_index ACCOUNTS cloud_name in
      let* api_key := js_get entry1 "api_key" in
      let* api_secret := js_get entry1 "api_secret" in
      ret (Some (mkCreds cloud_name api_key api_secret))
    else if strict_equals (creds_cloud_name DEFAULT_ACCOUNT) cloud_name
    then ret (Some DEFAULT_ACCOUNT)
    else ret None.

Definition credentials_error : string :=
  "Missing credentials. Provide 'cloud_name' or 'secure_url' and configure CLOUDINARY_ACCOUNTS_JSON or default envs.".

(** [getCredsForCloud(cloud_name) || (DEFAULT_ACCOUNT.cloud_name ? DEFAULT_ACCOUNT : null)] *)
Definition select_creds (cloud_name : JsVal) : M (option Creds) :=
  let* found := getCredsForCloud cloud_name in
  match found with
  | Some creds => ret (Some creds)
  | None =>
      ret (if truthy (creds_cloud_name DEFAULT_ACCOUNT)
           then Some DEFAULT_ACCOUNT else None)
  end.

(** [creds?.field]: [undefined] when [creds] is [null]. *)
Definition optional (creds : option Creds) (proj : Creds -> JsVal) : JsVal :=
  match creds with
  | Some c => proj c
  | None => JUndefined
  end.

(** [!creds?.cloud_name || !creds?.api_key || !creds?.api_secret] *)
Definition unusable (creds : option Creds) : bool :=
  negb (truthy (optional creds creds_cloud_name))
  || negb (truthy (optional creds creds_api_key))
  || negb (truthy (optional creds creds_api_secret)).

(** [app.post("/deleteMedia", ...)] applied to [req.body]. *)
Definition deleteMedia (body : gmap string JsVal) : Outcome :=
  let public_id := field body "public_id" in
  let cloud_name := field body "cloud_name" in
  let secure_url := field body "secure_url" in
  let resource_type := field body "resource_type" in
  let type := field body "type" in
  let invalidate := field body "invalidate" in
  if negb (truthy public_id)
  then mkOutcome 400 (error_body "public_id is required") [] []
  else
    match ToString public_id with
    | inl err => caught err []
    | inr text =>
        let public_id := trim text in
        let '(cloud_name, resource_type, type) :=
          derive cloud_name secure_url resource_type type in
        let resource_type := js_or resource_type (JStr "image") in
        let type := js_or type (JStr "upload") in
        let shouldInvalidate := shouldInvalidate invalidate in
        match select_creds cloud_name with
        | inl err => caught err []
        | inr creds =>
            if unusable creds
            then mkOutcome 400 (error_body credentials_error) [] []
            else
              match creds with
              | Some c =>
                  match endpoint_of c resource_type type with
                  | inl err => caught err []
                  | inr endpoint =>
                      let call :=
                        mkCall endpoint (creds_api_key c) (creds_api_secret c)
                               [public_id] shouldInvalidate in
                      match axios_delete call with
                      | inl err => caught err [call]
                      | inr data => mkOutcome 200 data [call] []
                      end
                  end
              | None => caught (TypeError_read JNull (Some "cloud_name")) []
              end
        end
    end.
End Server.
End Part000.

(** ** [src/index.js], first document: the single-account server *)

Module Legacy.
(** What one run of the handler does: the response, the identifiers handed to
    [cloudinary.uploader.destroy] and the errors passed to [console.error]
    (after the label "Error deleting media:"). *)
Record Outcome : Type := mkOutcome {
  status : nat;
  payload : JsVal;
  destroyed : list JsVal;
  logged : list JsError
}.

Section Server.
(** [await cloudinary.uploader.destroy(public_id)]: the result, or the error
    the promise rejects with. *)
Variable destroy : JsVal -> M JsVal.

(** [app.post("/deleteMedia", ...)] applied to [req.body]. *)
Definition deleteMedia (body : gmap string JsVal) : Outcome :=
  let public_id := field body "public_id" in
  if negb (truthy public_id)
  then mkOutcome 400 (error_body "public_id is required") [] []
  else
    match destroy public_id with
    | inr result => mkOutcome 200 result [public_id] []
    | inl err => mkOutcome 500 (error_body "Failed to delete media") [public_id] [err]
    end.
End Server.
End Legacy.

(** ** Fixtures for the concrete runs below *)

(** [{"demo": {"api_key": "K", "api_secret": "S"}}] *)
Definition demo_accounts : JsVal :=
  JObj {[ "demo" := JObj (<[ "api_key" := JStr "K" ]> {[ "api_secret" := JStr "S" ]}) ]}.

(** No [CLOUD_NAME], [CLOUDINARY_API_KEY] or [CLOUDINARY_API_SECRET]. *)
Definition no_default : Creds := mkCreds JUndefined JUndefined JUndefined.

(** A complete default account for the cloud [main]. *)
Definition main_default : Creds := mkCreds (JStr "main") (JStr "DK") (JStr "DS").

(** A remote that accepts every deletion and answers [{}]. *)
Definition upstream_ok (call : OutboundCall) : M JsVal := ret (JObj ∅).

(** A remote that answers every deletion with an error response carrying
    [{"error": {"message": "Invalid credentials"}}]. *)
Definition upstream_denies (call : OutboundCall) : M JsVal :=
  throw (mkError (JObj {[ "error" := JObj {[ "message" := JStr "Invalid credentials" ]} ]})
                 (JStr "Request failed with status code 401")).

(** ** Vocabulary of the properties *)

(** [c] occurs in [s]. *)
Fixpoint occurs (c : ascii) (s : string) : bool :=
  match s with
  | "" => false
  | String a s' => Ascii.eqb a c || occurs c s'
  end.

(** The account finally selected is unusable: there is none, or one of its
    [cloud_name], [api_key], [api_secret] is missing (or otherwise falsy). *)
Definition incomplete (selected : option Creds) : Prop :=
  match selected with
  | None => True
  | Some c =>
      truthy (creds_cloud_name c) = false
      \/ truthy (creds_api_key c) = false
      \/ truthy (creds_api_secret c) = false
  end.

(** The account has a name, a key and a secret. *)
Definition complete (c : Creds) : Prop :=
  truthy (creds_cloud_name c) = true
  /\ truthy (creds_api_key c) = true
  /\ truthy (creds_api_secret c) = true.

(** The name the handlers resolve credentials for. *)
Definition derived_cloud_name (body : gmap string JsVal) : JsVal :=
  let '(cloud_name, _, _) :=
    derive (field body "cloud_name") (field body "secure_url")
           (field body "resource_type") (field body "type") in
  cloud_name.

(** The resource type and the type the handlers put into the endpoint:
    the derived ones, or the defaults. *)
Definition final_resource_type (body : gmap string JsVal) : JsVal :=
  let '(_, resource_type, _) :=
    derive (field body "cloud_name") (field body "secure_url")
           (field body "resource_type") (field body "type") in
  js_or resource_type (JStr "image").

Definition final_type (body : gmap string JsVal) : JsVal :=
  let '(_, _, type) :=
    derive (field body "cloud_name") (field body "secure_url")
           (field body "resource_type") (field body "type") in
  js_or type (JStr "upload").

(** The request the handlers build for the identifier [public_id] once an
    account [c] is selected. *)
Definition call_for (body : gmap string JsVal) (public_id : string) (c : Creds)
    : M OutboundCall :=
  let* endpoint := endpoint_of c (final_resource_type body) (final_type body) in
  ret (mkCall endpoint (creds_api_key c) (creds_api_secret c) [public_id]
              (shouldInvalidate (field body "invalidate"))).

(** The request in which the derived values stand in place of the URL. *)
Definition with_derived (body : gmap string JsVal) : gmap string JsVal :=
  let '(cloud_name, resource_type, type) :=
    derive (field body "cloud_name") (field body "secure_url")
           (field body "resource_type") (field body "type") in
  <[ "cloud_name" := cloud_name ]>
    (<[ "resource_type" := resource_type ]>
       (<[ "type" := type ]> (delete "secure_url" body))).


(** [s] starts with a white-space character. *)
Definition starts_with_space (s : string) : bool :=
  match skip_one white_space s with
  | Some _ => true
  | None => false
  end.

(** [s] ends with a white-space character. *)
Definition ends_with_space (s : string) : bool :=
  match skip_one (String.rev <$> white_space) (String.rev s) with
  | Some _ => true
  | None => false
  end.

(** A path segment as the pattern's [[^/]+] accepts it: not empty and free of
    slashes. *)
Definition segment (s : string) : Prop := s <> "" /\ occurs "/" s = false.

(** The text a match of the pattern covers. *)
Definition locator (tenant resource_type type : string) : string :=
  "res.cloudinary.com/" +:+ tenant +:+ "/" +:+ resource_type +:+ "/" +:+ type +:+ "/".

(** [v] is not a string in which a locator occurs. *)
Definition no_locator (v : JsVal) : Prop :=
  forall before tenant resource_type type rest,
    segment tenant ->
    resource_type = "image" \/ resource_type = "video" ->
    segment type ->
    v <> JStr (before +:+ locator tenant resource_type type +:+ rest).

(** The fields of the request body the handlers read. *)
Definition request_fields : list string :=
  ["public_id"; "cloud_name"; "secure_url"; "resource_type"; "type"; "invalidate"].

(** Declarative reading of the pattern fragment: [matches r s caps rest caps']
    when [r] can consume the front of [s] down to [rest], turning the
    captures [caps] into [caps']. *)
Inductive matches : regex -> string -> captures -> string -> captures -> Prop :=
| matches_Eps s caps : matches Eps s caps s caps
| matches_Chr c s caps : matches (Chr c) (String c s) caps s caps
| matches_NotChr c a s caps :
    a <> c -> matches (NotChr c) (String a s) caps s caps
| matches_Cat r1 r2 s caps s1 caps1 s2 caps2 :
    matches r1 s caps s1 caps1 -> matches r2 s1 caps1 s2 caps2 ->
    matches (Cat r1 r2) s caps s2 caps2
| matches_Alt_l r1 r2 s caps s1 caps1 :
    matches r1 s caps s1 caps1 -> matches (Alt r1 r2) s caps s1 caps1
| matches_Alt_r r1 r2 s caps s1 caps1 :
    matches r2 s caps s1 caps1 -> matches (Alt r1 r2) s caps s1 caps1
| matches_Plus_one r s caps s1 caps1 :
    matches r s caps s1 caps1 -> matches (Plus r) s caps s1 caps1
| matches_Plus_more r s caps s1 caps1 s2 caps2 :
    matches r s caps s1 caps1 -> matches (Plus r) s1 caps1 s2 caps2 ->
    matches (Plus r) s caps s2 caps2
| matches_Group n r s caps s1 caps1 :
    matches r s caps s1 caps1 ->
    matches (Group n r) s caps s1 (<[n := consumed s s1]> caps1).

(** The account [getCredsForCloud] makes of what it found in the table under
    the name [cloud_name]. *)
Definition entry_account (cloud_name entry : JsVal) : Creds :=
  mkCreds cloud_name (member entry "api_key") (member entry "api_secret").

(** How a handler ends once it goes on to build its request: the build may
    throw, and so may the remote call. *)
Definition dispatch (axios_delete : OutboundCall -> M JsVal)
    (built : M OutboundCall) : Outcome :=
  match built with
  | inl err => caught err []
  | inr call =>
      match axios_delete call with
      | inl err => caught err [call]
      | inr data => mkOutcome 200 data [call] []
      end
  end.

(** The ways a run of a multi-account handler can end, for a handler that
    selects accounts with [select], refuses them with [unusable] and words
    the credentials error as [msg]. *)
Definition run_cases
    (select : JsVal -> M (option Creds)) (unusable : option Creds -> bool)
    (msg : string) (axios_delete : OutboundCall -> M JsVal)
    (body : gmap string JsVal) (o : Outcome) : Prop :=
  (truthy (field body "public_id") = false
   /\ o = mkOutcome 400 (error_body "public_id is required") [] [])
  \/ (truthy (field body "public_id") = true
      /\ ((exists err, ToString (field body "public_id") = throw err
                       /\ o = caught err [])
          \/ (exists text, ToString (field body "public_id") = ret text
              /\ ((exists err, select (derived_cloud_name body) = throw err
                               /\ o = caught err [])
                  \/ (exists selected,
                        select (derived_cloud_name body) = ret selected
                        /\ unusable selected = true
                        /\ o = mkOutcome 400 (error_body msg) [] [])
                  \/ (exists c,
                        select (derived_cloud_name body) = ret (Some c)
                        /\ unusable (Some c) = false
                        /\ o = dispatch axios_delete
                                 (call_for body (trim text) c)))))).

(** Case analysis along the handler: validation, conversion of the
    identifier, then derivation. *)
Ltac handler_cases :=
  match goal with
  | |- context [truthy (field ?body "public_id")] =>
      destruct (truthy (field body "public_id")) eqn:?; cbn [negb]
  end;
  try match goal with
  | |- context [ToString (field ?body "public_id")] =>
      destruct (ToString (field body "public_id")) as [pid_err | pid_text] eqn:?
  end;
  try match goal with
  | |- context [derive ?a ?b ?c ?d] =>
      destruct (derive a b c d) as [[cn rt] ty] eqn:Hderive
  end.

(** * Properties *)

(** ** Values *)

Lemma Proto_eqb_eq p q : Proto_eqb p q = true -> p = q.
Proof. by destruct p, q. Qed.

Lemma strict_equals_eq a b : strict_equals a b = true -> a = b.
Proof.
  destruct a, b; simpl; try discriminate; auto.
  - intros H. f_equal. by apply Bool.eqb_prop.
  - intros [H _]%andb_prop. f_equal. by apply String.eqb_eq.
  - intros H. f_equal. by apply String.eqb_eq.
  - intros [Hp Hk]%andb_prop. f_equal; [by apply Proto_eqb_eq | by apply String.eqb_eq].
Qed.

Lemma truthy_JStr s : truthy (JStr s) = true <-> s <> "".
Proof.
  simpl. rewrite negb_true_iff. split.
  - intros H ->. discriminate.
  - intros H. by apply String.eqb_neq.
Qed.

Lemma strict_equals_JStr s t : strict_equals (JStr s) (JStr t) = true <-> s = t.
Proof. simpl. apply String.eqb_eq. Qed.

Lemma js_or_truthy a b : truthy a = true -> js_or a b = a.
Proof. unfold js_or. by intros ->. Qed.

Lemma js_or_falsy a b : truthy a = false -> js_or a b = b.
Proof. unfold js_or. by intros ->. Qed.

(** ** Concrete runs *)

Example parseFromUrl_video_private :
  parseFromUrl (JStr "https://res.cloudinary.com/dvberoxgh/video/private/v123/clip.mp4")
  = mkParsed (JStr "dvberoxgh") (JStr "video") (JStr "private").
Proof. vm_compute. reflexivity. Qed.

(** The leftmost match wins, and a tenant segment cannot be empty. *)
Example parseFromUrl_leftmost :
  parseFromUrl (JStr "res.cloudinary.com//image/upload/res.cloudinary.com/x/video/y/")
  = mkParsed (JStr "x") (JStr "video") (JStr "y").
Proof. vm_compute. reflexivity. Qed.

(** The segment after the resource type must be closed by a slash. *)
Example parseFromUrl_unterminated :
  parseFromUrl (JStr "https://res.cloudinary.com/demo/image/upload")
  = empty_parsed.
Proof. vm_compute. reflexivity. Qed.

(** White space of every kind goes, at both ends only. *)
Example trim_examples :
  trim "  folder/file " = "folder/file" /\ trim "a b" = "a b" /\ trim "   " = ""
  /\ trim (utf8 160 +:+ "a" +:+ utf8 8195 +:+ "b" +:+ utf8 65279 +:+ utf8 8232)
     = "a" +:+ utf8 8195 +:+ "b".
Proof. vm_compute. auto. Qed.

Example ToString_examples :
  ToString (JArr [JNum "1"; JNull; JStr "x"]) = ret "1,,x"
  /\ ToString (JObj ∅) = ret "[object Object]"
  /\ ToString (JBool false) = ret "false"
  /\ ToString (JObj {[ "toString" := JNum "1" ]})
     = throw (TypeError "Cannot convert object to primitive value")
  /\ ToString (JArr [JStr "a"; JObj {[ "toString" := JNull ]}])
     = throw (TypeError "Cannot convert object to primitive value").
Proof. vm_compute. auto 6. Qed.

(** Property reads go on to the prototype chain. *)
Example member_examples :
  member (JObj ∅) "constructor" = JBuiltin ObjectPrototype "constructor"
  /\ member (JObj {[ "constructor" := JNull ]}) "constructor" = JNull
  /\ member (JObj ∅) "api_key" = JUndefined
  /\ member (JArr [JStr "x"]) "0" = JStr "x"
  /\ member (JArr [JStr "x"]) "map" = JBuiltin ArrayPrototype "map"
  /\ member (JStr "ab") "length" = JNum "2"
  /\ member (JStr (utf8 233)) "length" = JNum "1"
  /\ member (JBuiltin ObjectPrototype "constructor") "api_key" = JUndefined.
Proof. vm_compute. auto 10. Qed.

(** A request that names its cloud through the URL only. *)
Example deleteMedia_by_url :
  let body : gmap string JsVal :=
    <[ "public_id" := JStr " a/b " ]>
      {[ "secure_url" := JStr "https://res.cloudinary.com/demo/video/private/v1/a/b.mp4" ]} in
  Part000.deleteMedia demo_accounts no_default upstream_ok body
  = mkOutcome 200 (JObj ∅)
      [mkCall "https://api.cloudinary.com/v1_1/demo/resources/video/private"
              (JStr "K") (JStr "S") ["a/b"] true] [].
Proof. vm_compute. reflexivity. Qed.

(** A table that parsed to [null] makes the lookup throw; the handler answers
    500. *)
Example deleteMedia_null_table :
  let body : gmap string JsVal :=
    <[ "public_id" := JStr "a/b" ]> {[ "cloud_name" := JStr "demo" ]} in
  IndexJs.deleteMedia JNull main_default upstream_ok body
  = mkOutcome 500 (error_body "Failed to delete media") []
      [mkLog "Error deleting media:"
             (JStr "Cannot read properties of null (reading 'demo')")].
Proof. vm_compute. reflexivity. Qed.

(** A name that every object inherits is found by the lookup, without a key
    or a secret: the request is refused although a complete default account
    is configured. *)
Example deleteMedia_inherited_name :
  let body : gmap string JsVal :=
    <[ "public_id" := JStr "a/b" ]> {[ "cloud_name" := JStr "constructor" ]} in
  IndexJs.getCredsForCloud (JObj ∅) main_default (JStr "constructor")
  = ret (Some (mkCreds (JStr "constructor") JUndefined JUndefined))
  /\ IndexJs.deleteMedia (JObj ∅) main_default upstream_ok body
     = mkOutcome 400 (error_body IndexJs.credentials_error) [] []
  /\ Part000.deleteMedia (JObj ∅) main_default upstream_ok body
     = mkOutcome 400 (error_body Part000.credentials_error) [] [].
Proof. vm_compute. auto. Qed.

(** A [public_id] that cannot be converted to a string ends in the [catch]
    block. *)
Example deleteMedia_unconvertible_public_id :
  let body : gmap string JsVal :=
    {[ "public_id" := JObj {[ "toString" := JNum "1" ]} ]} in
  IndexJs.deleteMedia (JObj ∅) no_default upstream_ok body
  = mkOutcome 500 (error_body "Failed to delete media") []
      [mkLog "Error deleting media:"
             (JStr "Cannot convert object to primitive value")].
Proof. vm_compute. reflexivity. Qed.

(** ** C1: validation of [public_id] *)

(** C1, as stated, fails: a [public_id] of three spaces is empty after
    trimming, yet the request is not rejected; both revisions issue the
    outbound deletion, with the empty identifier, and answer 200. *)
Lemma C1_blank_public_id_not_rejected :
  let body : gmap string JsVal :=
    <[ "public_id" := JStr "   " ]> {[ "cloud_name" := JStr "demo" ]} in
  let call :=
    mkCall "https://api.cloudinary.com/v1_1/demo/resources/image/upload"
           (JStr "K") (JStr "S") [""] true in
  ToString (field body "public_id") = ret "   "
  /\ trim "   " = ""
  /\ IndexJs.deleteMedia demo_accounts no_default upstream_ok body
     = mkOutcome 200 (JObj ∅) [call] []
  /\ Part000.deleteMedia demo_accounts no_default upstream_ok body
     = mkOutcome 200 (JObj ∅) [call] [].
Proof. vm_compute. auto. Qed.

(** C1, amended: when [public_id] is absent or falsy as received (before any
    trimming: [undefined], [null], [false], [0] or the empty string), both
    revisions answer 400 with [{error: "public_id is required"}], issue no
    outbound call and log nothing, whatever the other fields and the
    configuration are. *)
Theorem C1_falsy_public_id_rejected
    (ACCOUNTS : JsVal) (DEFAULT_ACCOUNT : Creds)
    (axios_delete : OutboundCall -> M JsVal) (body : gmap string JsVal) :
  truthy (field body "public_id") = false ->
  IndexJs.deleteMedia ACCOUNTS DEFAULT_ACCOUNT axios_delete body
    = mkOutcome 400 (error_body "public_id is required") [] []
  /\ Part000.deleteMedia ACCOUNTS DEFAULT_ACCOUNT axios_delete body
    = mkOutcome 400 (error_body "public_id is required") [] [].
Proof.
  intros Hfalsy. unfold IndexJs.deleteMedia, Part000.deleteMedia.
  by rewrite Hfalsy.
Qed.

(** C1 at a concrete input. *)
Lemma C1_falsy_public_id_rejected_witness :
  let body : gmap string JsVal :=
    <[ "public_id" := JStr "" ]> {[ "cloud_name" := JStr "demo" ]} in
  truthy (field body "public_id") = false
  /\ (IndexJs.deleteMedia demo_accounts main_default upstream_ok body
        = mkOutcome 400 (error_body "public_id is required") [] []
      /\ Part000.deleteMedia demo_accounts main_default upstream_ok body
        = mkOutcome 400 (error_body "public_id is required") [] []).
Proof.
  split; [reflexivity |].
  apply (C1_falsy_public_id_rejected demo_accounts main_default upstream_ok).
  reflexivity.
Defined.

(** ** Property reads *)

Lemma member_JObj props key :
  member (JObj props) key
  = match props !! key with
    | Some x => x
    | None => inherited ObjectPrototype key
    end.
Proof. reflexivity. Qed.

(** A name that is none of the inherited ones is found only as an own
    property. *)
Lemma inherited_plain key :
  named_in Object_prototype_names key = false ->
  inherited ObjectPrototype key = JUndefined.
Proof.
  unfold Object_prototype_names, inherited. cbn [named_in existsb].
  intros [H1 H2]%orb_false_elim. unfold named_in. by rewrite H2, H1.
Qed.

(** What is found under an inherited name is a built-in: truthy, and without
    a key or a secret. *)
Lemma inherited_named key :
  named_in Object_prototype_names key = true ->
  exists name, inherited ObjectPrototype key = JBuiltin ObjectPrototype name.
Proof.
  unfold Object_prototype_names, inherited. cbn [named_in existsb].
  fold (named_in (members ObjectPrototype) key).
  destruct (named_in (members ObjectPrototype) key); [by eauto |].
  rewrite orb_false_r. intros ->. by eauto.
Qed.

Lemma member_absent props key :
  props !! key = None -> named_in Object_prototype_names key = false ->
  member (JObj props) key = JUndefined.
Proof. intros Hl Hn. by rewrite member_JObj, Hl, inherited_plain. Qed.

Lemma member_own props key e :
  props !! key = Some e -> member (JObj props) key = e.
Proof. intros Hl. by rewrite member_JObj, Hl. Qed.

(** The two names the program reads from a table entry are not inherited
    ones: on an object they are own properties or absent. *)
Lemma member_credentials props :
  member (JObj props) "api_key" = field props "api_key"
  /\ member (JObj props) "api_secret" = field props "api_secret".
Proof. rewrite !member_JObj. unfold field. split; by destruct (props !! _). Qed.

Lemma js_get_truthy v key : truthy v = true -> js_get v key = ret (member v key).
Proof. by destruct v. Qed.

(** Only a truthy value has a truthy key or secret. *)
Lemma credential_truthy v :
  truthy (member v "api_key") = true \/ truthy (member v "api_secret") = true ->
  truthy v = true.
Proof.
  destruct v as [| | b | r | s | elems | props | p k]; try done; cbn.
  - by intros [H | H].
  - by intros [H | H].
  - by intros [H | H].
  - by intros [H | H].
  - destruct s as [| a s]; [| done]. by intros [H | H].
Qed.

(** A computed read on a value that is neither [null] nor [undefined]. *)
Lemma js_index_member v key name :
  v <> JNull -> v <> JUndefined -> ToString key = ret name ->
  js_index v key = ret (member v name).
Proof. intros Hn Hu Hk. destruct v; try done; cbn; by rewrite Hk. Qed.

Lemma strict_equals_JStr_r a c : strict_equals a (JStr c) = true <-> a = JStr c.
Proof.
  split.
  - apply strict_equals_eq.
  - intros ->. by apply strict_equals_JStr.
Qed.

Lemma strict_equals_JStr_r_false a c : a <> JStr c -> strict_equals a (JStr c) = false.
Proof.
  intros Hne. destruct (strict_equals a (JStr c)) eqn:E; [| done].
  by apply strict_equals_JStr_r in E.
Qed.

(** ** C2: credential resolution *)

(** Both revisions of [getCredsForCloud] return [null] on a falsy name. *)
Lemma getCredsForCloud_falsy ACCOUNTS D v :
  truthy v = false ->
  IndexJs.getCredsForCloud ACCOUNTS D v = ret None
  /\ Part000.getCredsForCloud ACCOUNTS D v = ret None.
Proof.
  intros H. unfold IndexJs.getCredsForCloud, Part000.getCredsForCloud.
  by rewrite H.
Qed.

(** The two revisions resolve every name alike. *)
Lemma getCredsForCloud_revisions_agree ACCOUNTS D v :
  Part000.getCredsForCloud ACCOUNTS D v = IndexJs.getCredsForCloud ACCOUNTS D v.
Proof.
  unfold Part000.getCredsForCloud, IndexJs.getCredsForCloud.
  destruct (truthy v) eqn:Hv; cbn [negb]; [| done].
  destruct (js_index ACCOUNTS v) as [e | entry]; cbn [bind]; [done |].
  destruct (truthy entry) eqn:He.
  - rewrite !(js_get_truthy entry) by done. reflexivity.
  - destruct (strict_equals (creds_cloud_name D) v) eqn:Heq.
    + apply strict_equals_eq in Heq. rewrite Heq, Hv. cbn [andb].
      destruct D as [n k s]; simpl in *. by subst.
    + by rewrite andb_false_r.
Qed.

(** What a truthy name resolves to once its key is known: the account made
    of what the table has under the key, if that is truthy; else the default
    account, if the name is strictly equal to its name. *)
Lemma getCredsForCloud_lookup ACCOUNTS D v key :
  truthy v = true -> ACCOUNTS <> JNull -> ACCOUNTS <> JUndefined ->
  ToString v = ret key ->
  let entry := member ACCOUNTS key in
  let found :=
    if truthy entry then Some (entry_account v entry)
    else if strict_equals (creds_cloud_name D) v then Some D
    else None in
  IndexJs.getCredsForCloud ACCOUNTS D v = ret found
  /\ Part000.getCredsForCloud ACCOUNTS D v = ret found.
Proof.
  intros Hv Hn Hu Hk entry found. subst found entry.
  rewrite getCredsForCloud_revisions_agree.
  match goal with |- ?P /\ ?P => enough P by by split end.
  unfold IndexJs.getCredsForCloud.
  rewrite Hv, (js_index_member _ _ _ Hn Hu Hk). cbn [negb bind ret].
  destruct (truthy (member ACCOUNTS key)) eqn:He.
  - by rewrite !(js_get_truthy _ _ He).
  - destruct (strict_equals (creds_cloud_name D) v) eqn:Heq.
    + apply strict_equals_eq in Heq. rewrite Heq, Hv. cbn [andb].
      destruct D as [n k s]; simpl in *. by subst.
    + by rewrite andb_false_r.
Qed.

(** A truthy entry of the table under the key of a truthy name wins. *)
Lemma getCredsForCloud_entry table D v key e :
  truthy v = true -> ToString v = ret key ->
  table !! key = Some e -> truthy e = true ->
  IndexJs.getCredsForCloud (JObj table) D v = ret (Some (entry_account v e))
  /\ Part000.getCredsForCloud (JObj table) D v = ret (Some (entry_account v e)).
Proof.
  intros Hv Hk He Ht.
  destruct (getCredsForCloud_lookup (JObj table) D v key Hv) as [-> ->]; try done.
  by rewrite (member_own _ _ _ He), Ht.
Qed.

(** Without anything truthy under its key, a truthy name resolves by strict
    equality with the name of the default account. *)
Lemma getCredsForCloud_no_entry table D v key :
  truthy v = true -> ToString v = ret key ->
  truthy (member (JObj table) key) = false ->
  IndexJs.getCredsForCloud (JObj table) D v
    = ret (if strict_equals (creds_cloud_name D) v then Some D else None)
  /\ Part000.getCredsForCloud (JObj table) D v
    = ret (if strict_equals (creds_cloud_name D) v then Some D else None).
Proof.
  intros Hv Hk He.
  destruct (getCredsForCloud_lookup (JObj table) D v key Hv) as [-> ->]; try done.
  by rewrite He.
Qed.

(** C2, as stated, fails, in both revisions.  The empty name is a key of the
    table [{"": {"api_key": "K", "api_secret": "S"}}], yet resolving it
    returns [null].  The name "constructor" is absent from the table
    [demo_accounts] and is not the default account's, yet resolving it
    returns an account, the one made from the member every object inherits.
    And the name [["demo"]], which is not the string "demo", is resolved to
    the entry of "demo". *)
Lemma C2_names_resolved_otherwise :
  let entry := JObj (<[ "api_key" := JStr "K" ]> {[ "api_secret" := JStr "S" ]}) in
  let table : gmap string JsVal := {[ "" := entry ]} in
  let inherited_account := mkCreds (JStr "constructor") JUndefined JUndefined in
  let coerced := JArr [JStr "demo"] in
  (table !! "" = Some entry
   /\ IndexJs.getCredsForCloud (JObj table) main_default (JStr "") = ret None
   /\ Part000.getCredsForCloud (JObj table) main_default (JStr "") = ret None)
  /\ (own_prop demo_accounts "constructor" = None
      /\ strict_equals (creds_cloud_name main_default) (JStr "constructor") = false
      /\ IndexJs.getCredsForCloud demo_accounts main_default (JStr "constructor")
         = ret (Some inherited_account)
      /\ Part000.getCredsForCloud demo_accounts main_default (JStr "constructor")
         = ret (Some inherited_account))
  /\ (strict_equals coerced (JStr "demo") = false
      /\ IndexJs.getCredsForCloud demo_accounts main_default coerced
         = ret (Some (mkCreds coerced (JStr "K") (JStr "S")))
      /\ Part000.getCredsForCloud demo_accounts main_default coerced
         = ret (Some (mkCreds coerced (JStr "K") (JStr "S")))).
Proof. vm_compute. repeat split; reflexivity. Qed.

(** C2, amended: over a table [table] and a default account [D], for a name
    that is a string [c]:
    - if [c] is not empty and the table has a truthy entry [e] for it,
      resolution returns [c] with that entry's [api_key] and [api_secret],
      whatever the default account is;
    - if [c] is not empty, absent from the table, not one of the names every
      object inherits, and equal to the default account's name, resolution
      returns the default account;
    - if [c] is absent from the table, not an inherited name, and differs
      from the default account's name, resolution returns [null];
    - the empty name resolves to [null] even when it is a key of the table.
    Strings match by equality only.  A truthy name [v] that is not a string
    is looked up in the table under its string conversion, and it never
    matches a default account read from the environment. *)
Theorem C2_resolution_of_string_names
    (table : gmap string JsVal) (D : Creds) (c : string) :
  (c <> "" -> forall e, table !! c = Some e -> truthy e = true ->
     IndexJs.getCredsForCloud (JObj table) D (JStr c)
       = ret (Some (mkCreds (JStr c) (member e "api_key") (member e "api_secret")))
     /\ Part000.getCredsForCloud (JObj table) D (JStr c)
       = ret (Some (mkCreds (JStr c) (member e "api_key") (member e "api_secret"))))
  /\ (c <> "" -> table !! c = None -> named_in Object_prototype_names c = false ->
     creds_cloud_name D = JStr c ->
     IndexJs.getCredsForCloud (JObj table) D (JStr c) = ret (Some D)
     /\ Part000.getCredsForCloud (JObj table) D (JStr c) = ret (Some D))
  /\ (table !! c = None -> named_in Object_prototype_names c = false ->
     creds_cloud_name D <> JStr c ->
     IndexJs.getCredsForCloud (JObj table) D (JStr c) = ret None
     /\ Part000.getCredsForCloud (JObj table) D (JStr c) = ret None)
  /\ (c = "" ->
     IndexJs.getCredsForCloud (JObj table) D (JStr c) = ret None
     /\ Part000.getCredsForCloud (JObj table) D (JStr c) = ret None)
  /\ (forall v key,
        truthy v = true -> (forall s, v <> JStr s) -> ToString v = ret key ->
        (forall e, table !! key = Some e -> truthy e = true ->
           IndexJs.getCredsForCloud (JObj table) D v
             = ret (Some (mkCreds v (member e "api_key") (member e "api_secret")))
           /\ Part000.getCredsForCloud (JObj table) D v
             = ret (Some (mkCreds v (member e "api_key") (member e "api_secret"))))
        /\ (table !! key = None -> named_in Object_prototype_names key = false ->
            forall env,
              IndexJs.getCredsForCloud (JObj table) (DEFAULT_ACCOUNT_of_env env) v
                = ret None
              /\ Part000.getCredsForCloud (JObj table) (DEFAULT_ACCOUNT_of_env env) v
                = ret None)).
Proof.
  split; [| split; [| split; [| split]]].
  - intros Hc e He Ht.
    by apply (getCredsForCloud_entry table D (JStr c) c e); [apply truthy_JStr | | |].
  - intros Hc Habs Hplain HD.
    destruct (getCredsForCloud_no_entry table D (JStr c) c) as [H1 H2];
      [by apply truthy_JStr | done | by rewrite member_absent |].
    by rewrite H1, H2, (proj2 (strict_equals_JStr_r _ _) HD).
  - intros Habs Hplain HD. destruct (decide (c = "")) as [-> | Hc];
      [by apply getCredsForCloud_falsy |].
    destruct (getCredsForCloud_no_entry table D (JStr c) c) as [H1 H2];
      [by apply truthy_JStr | done | by rewrite member_absent |].
    by rewrite H1, H2, (strict_equals_JStr_r_false _ _ HD).
  - intros ->. by apply getCredsForCloud_falsy.
  - intros v key Hv Hns Hk. split.
    + intros e He Ht. by apply (getCredsForCloud_entry table D v key e).
    + intros Habs Hplain env.
      destruct (getCredsForCloud_no_entry table (DEFAULT_ACCOUNT_of_env env) v key)
        as [-> ->]; [done | done | by rewrite member_absent |].
      assert (strict_equals (creds_cloud_name (DEFAULT_ACCOUNT_of_env env)) v
              = false) as ->; [| done].
      destruct (strict_equals _ _) eqn:Heq; [| done].
      apply strict_equals_eq in Heq. cbn in Heq.
      destruct (CLOUD_NAME env) as [d |]; cbn in Heq.
      * by destruct (Hns d).
      * by rewrite <- Heq in Hv.
Qed.

(** C2 at a concrete input. *)
Lemma C2_resolution_of_string_names_witness :
  IndexJs.getCredsForCloud demo_accounts main_default (JStr "demo")
    = ret (Some (mkCreds (JStr "demo") (JStr "K") (JStr "S")))
  /\ Part000.getCredsForCloud demo_accounts main_default (JStr "main")
    = ret (Some main_default)
  /\ IndexJs.getCredsForCloud demo_accounts main_default (JStr "dem")
    = ret None
  /\ Part000.getCredsForCloud demo_accounts main_default (JArr [JStr "demo"])
    = ret (Some (mkCreds (JArr [JStr "demo"]) (JStr "K") (JStr "S"))).
Proof.
  pose proof (C2_resolution_of_string_names
                {[ "demo" := JObj (<[ "api_key" := JStr "K" ]>
                                     {[ "api_secret" := JStr "S" ]}) ]}
                main_default) as H.
  split; [| split; [| split]].
  - destruct (H "demo") as [H1 _].
    exact (proj1 (H1 ltac:(discriminate) _ eq_refl eq_refl)).
  - destruct (H "main") as (_ & H2 & _).
    exact (proj2 (H2 ltac:(discriminate) eq_refl eq_refl eq_refl)).
  - destruct (H "dem") as (_ & _ & H3 & _).
    exact (proj1 (H3 eq_refl eq_refl ltac:(discriminate))).
  - destruct (H "") as (_ & _ & _ & _ & H5).
    destruct (H5 (JArr [JStr "demo"]) "demo" eq_refl ltac:(discriminate) eq_refl)
      as [Hentry _].
    exact (proj2 (Hentry _ eq_refl eq_refl)).
Defined.

(** ** The two revisions agree *)

Lemma select_creds_revisions_agree ACCOUNTS D v :
  Part000.select_creds ACCOUNTS D v = IndexJs.select_creds ACCOUNTS D v.
Proof.
  unfold Part000.select_creds, IndexJs.select_creds.
  by rewrite getCredsForCloud_revisions_agree.
Qed.

Lemma unusable_revisions_agree selected :
  Part000.unusable selected = IndexJs.unusable selected.
Proof.
  destruct selected as [[n k s] |]; [| done].
  unfold Part000.unusable, IndexJs.unusable, Part000.optional. simpl.
  by destruct (truthy n), (truthy k), (truthy s).
Qed.

(** On every request the two revisions send the same status, issue the same
    outbound requests and log the same lines; their payloads are equal
    except for the wording of the credentials error. *)
Lemma deleteMedia_revisions_agree ACCOUNTS D axios_delete body :
  let old := IndexJs.deleteMedia ACCOUNTS D axios_delete body in
  let new := Part000.deleteMedia ACCOUNTS D axios_delete body in
  status new = status old
  /\ calls new = calls old
  /\ logged new = logged old
  /\ (payload new = payload old
      \/ (payload old = error_body IndexJs.credentials_error
          /\ payload new = error_body Part000.credentials_error)).
Proof.
  unfold IndexJs.deleteMedia, Part000.deleteMedia.
  handler_cases; [by auto | | by auto].
  rewrite select_creds_revisions_agree.
  destruct (IndexJs.select_creds _ _ _) as [err | selected]; [by auto |].
  rewrite unusable_revisions_agree.
  destruct (IndexJs.unusable selected); [by auto 6 |].
  destruct selected as [c |]; [| by auto].
  destruct (endpoint_of _ _ _); [by auto |].
  destruct (axios_delete _); by auto.
Qed.

(** ** How a run of the handler ends *)

Lemma dispatch_call_for axios_delete body public_id c :
  dispatch axios_delete (call_for body public_id c)
  = match endpoint_of c (final_resource_type body) (final_type body) with
    | inl err => caught err []
    | inr endpoint =>
        let call := mkCall endpoint (creds_api_key c) (creds_api_secret c)
                           [public_id] (shouldInvalidate (field body "invalidate")) in
        match axios_delete call with
        | inl err => caught err [call]
        | inr data => mkOutcome 200 data [call] []
        end
    end.
Proof. unfold dispatch, call_for. by destruct (endpoint_of _ _ _). Qed.

Lemma IndexJs_run_cases ACCOUNTS D axios_delete body :
  run_cases (IndexJs.select_creds ACCOUNTS D) IndexJs.unusable
            IndexJs.credentials_error axios_delete body
            (IndexJs.deleteMedia ACCOUNTS D axios_delete body).
Proof.
  unfold run_cases, IndexJs.deleteMedia.
  destruct (truthy (field body "public_id")); cbn [negb]; [right | by left].
  split; [done |].
  destruct (ToString (field body "public_id")) as [err | text]; [by eauto |].
  right. exists text. split; [done |].
  unfold dispatch, call_for, derived_cloud_name, final_resource_type, final_type.
  destruct (derive _ _ _ _) as [[cn rt] ty].
  destruct (IndexJs.select_creds _ _ _) as [err | selected]; [by eauto |].
  right. destruct (IndexJs.unusable selected) eqn:Hu; [by eauto |].
  destruct selected as [c |]; [| done].
  right. exists c. split; [done |]. split; [done |].
  by destruct (endpoint_of _ _ _).
Qed.

Lemma Part000_run_cases ACCOUNTS D axios_delete body :
  run_cases (Part000.select_creds ACCOUNTS D) Part000.unusable
            Part000.credentials_error axios_delete body
            (Part000.deleteMedia ACCOUNTS D axios_delete body).
Proof.
  unfold run_cases, Part000.deleteMedia.
  destruct (truthy (field body "public_id")); cbn [negb]; [right | by left].
  split; [done |].
  destruct (ToString (field body "public_id")) as [err | text]; [by eauto |].
  right. exists text. split; [done |].
  unfold dispatch, call_for, derived_cloud_name, final_resource_type, final_type.
  destruct (derive _ _ _ _) as [[cn rt] ty].
  destruct (Part000.select_creds _ _ _) as [err | selected]; [by eauto |].
  right. destruct (Part000.unusable selected) eqn:Hu; [by eauto |].
  destruct selected as [c |]; [| done].
  right. exists c. split; [done |]. split; [done |].
  by destruct (endpoint_of _ _ _).
Qed.

(** ** C3: the credentials gate *)

Lemma incomplete_unusable selected :
  incomplete selected ->
  IndexJs.unusable selected = true /\ Part000.unusable selected = true.
Proof.
  destruct selected as [[n k s] |]; simpl; [| done].
  unfold IndexJs.unusable, Part000.unusable. simpl.
  intros [-> | [-> | ->]]; simpl; rewrite ?orb_true_r; done.
Qed.

Lemma unusable_incomplete selected :
  (IndexJs.unusable selected = true -> incomplete selected)
  /\ (Part000.unusable selected = true -> incomplete selected).
Proof.
  destruct selected as [[n k s] |]; simpl; [| done].
  unfold IndexJs.unusable, Part000.unusable. simpl.
  destruct (truthy n), (truthy k), (truthy s); simpl; auto; discriminate.
Qed.

Lemma complete_usable c :
  complete c ->
  IndexJs.unusable (Some c) = false /\ Part000.unusable (Some c) = false.
Proof.
  intros (Hn & Hk & Hs). unfold IndexJs.unusable, Part000.unusable, Part000.optional.
  by rewrite Hn, Hk, Hs.
Qed.

(** Once the identifier converts and a complete account is selected, the
    handlers go on to build and send the one request for it. *)
Lemma deleteMedia_selected ACCOUNTS D axios_delete body text c :
  truthy (field body "public_id") = true ->
  ToString (field body "public_id") = ret text ->
  IndexJs.select_creds ACCOUNTS D (derived_cloud_name body) = ret (Some c) ->
  complete c ->
  IndexJs.deleteMedia ACCOUNTS D axios_delete body
    = dispatch axios_delete (call_for body (trim text) c)
  /\ Part000.deleteMedia ACCOUNTS D axios_delete body
    = dispatch axios_delete (call_for body (trim text) c).
Proof.
  intros Hpid Htext Hsel [Hi Hp]%complete_usable.
  assert (Hsel' := Hsel). rewrite <- select_creds_revisions_agree in Hsel'.
  rewrite dispatch_call_for.
  unfold IndexJs.deleteMedia, Part000.deleteMedia.
  unfold derived_cloud_name, final_resource_type, final_type in *.
  rewrite Hpid, Htext. cbn [negb]. unfold ret.
  destruct (derive _ _ _ _) as [[cn rt] ty].
  rewrite Hsel, Hsel'. unfold ret. by rewrite Hi, Hp.
Qed.

(** An account that lacks a name, a key or a secret, once selected, gets the
    credentials error. *)
Lemma deleteMedia_incomplete ACCOUNTS D axios_delete body text selected :
  truthy (field body "public_id") = true ->
  ToString (field body "public_id") = ret text ->
  IndexJs.select_creds ACCOUNTS D (derived_cloud_name body) = ret selected ->
  incomplete selected ->
  IndexJs.deleteMedia ACCOUNTS D axios_delete body
    = mkOutcome 400 (error_body IndexJs.credentials_error) [] []
  /\ Part000.deleteMedia ACCOUNTS D axios_delete body
    = mkOutcome 400 (error_body Part000.credentials_error) [] [].
Proof.
  intros Hpid Htext Hsel [Hi Hp]%incomplete_unusable.
  assert (Hsel' := Hsel). rewrite <- select_creds_revisions_agree in Hsel'.
  unfold IndexJs.deleteMedia, Part000.deleteMedia.
  unfold derived_cloud_name in *.
  rewrite Hpid, Htext. cbn [negb]. unfold ret.
  destruct (derive _ _ _ _) as [[cn rt] ty].
  rewrite Hsel, Hsel'. unfold ret. by rewrite Hi, Hp.
Qed.

(** The request built for an account whose name, and the final resource type
    and type, convert to strings. *)
Lemma call_for_ok body public_id c name rt ty :
  ToString (creds_cloud_name c) = ret name ->
  ToString (final_resource_type body) = ret rt ->
  ToString (final_type body) = ret ty ->
  call_for body public_id c
  = ret (mkCall (endpoint_url name rt ty) (creds_api_key c) (creds_api_secret c)
                [public_id] (shouldInvalidate (field body "invalidate"))).
Proof.
  intros Hn Hrt Hty. unfold call_for, endpoint_of.
  by rewrite Hn, Hrt, Hty.
Qed.

(** A request that was built is sent, once. *)
Lemma dispatch_calls axios_delete built call :
  built = ret call -> calls (dispatch axios_delete built) = [call].
Proof. intros ->. unfold dispatch, ret. by destruct (axios_delete call). Qed.

(** Exactly one request goes out when the identifier converts, a complete
    account is selected and the endpoint can be written. *)
Lemma deleteMedia_served ACCOUNTS D axios_delete body text c name rt ty :
  truthy (field body "public_id") = true ->
  ToString (field body "public_id") = ret text ->
  IndexJs.select_creds ACCOUNTS D (derived_cloud_name body) = ret (Some c) ->
  complete c ->
  ToString (creds_cloud_name c) = ret name ->
  ToString (final_resource_type body) = ret rt ->
  ToString (final_type body) = ret ty ->
  let call := mkCall (endpoint_url name rt ty) (creds_api_key c) (creds_api_secret c)
                     [trim text] (shouldInvalidate (field body "invalidate")) in
  calls (IndexJs.deleteMedia ACCOUNTS D axios_delete body) = [call]
  /\ calls (Part000.deleteMedia ACCOUNTS D axios_delete body) = [call].
Proof.
  intros Hpid Htext Hsel Hc Hn Hrt Hty call.
  destruct (deleteMedia_selected ACCOUNTS D axios_delete body text c
              Hpid Htext Hsel Hc) as [-> ->].
  split; apply dispatch_calls; by apply call_for_ok.
Qed.

(** What the selection makes of a lookup that returned. *)
Lemma select_creds_found ACCOUNTS D v found :
  IndexJs.getCredsForCloud ACCOUNTS D v = ret found ->
  IndexJs.select_creds ACCOUNTS D v
  = ret (match found with
         | Some c => Some c
         | None => if truthy (creds_cloud_name D) then Some D else None
         end).
Proof. intros H. unfold IndexJs.select_creds. rewrite H. by destruct found. Qed.

(** What the chain has under a name is nothing or a built-in. *)
Lemma inherited_cases p key :
  inherited p key = JUndefined \/ exists q name, inherited p key = JBuiltin q name.
Proof.
  unfold inherited.
  destruct (named_in (members p) key); [by eauto |].
  destruct (String.eqb key "__proto__"); [by eauto |].
  destruct (named_in (members ObjectPrototype) key); by eauto.
Qed.

(** On an empty table a lookup finds nothing or a built-in, which has
    neither key nor secret: no usable account comes out of it. *)
Lemma select_creds_empty_table D v key :
  truthy v = true -> ToString v = ret key ->
  exists selected,
    IndexJs.select_creds (JObj ∅) D v = ret selected
    /\ (selected = (if truthy (creds_cloud_name D) then Some D else None)
        \/ incomplete selected).
Proof.
  intros Hv Hk.
  destruct (getCredsForCloud_lookup (JObj ∅) D v key Hv) as [Hi _]; try done.
  cbv zeta in Hi. rewrite member_JObj, lookup_empty in Hi.
  eexists. split; [by apply select_creds_found |].
  destruct (inherited_cases ObjectPrototype key) as [Hnone | (q & name & Hsome)].
  - rewrite Hnone. cbn [truthy]. left.
    destruct (strict_equals (creds_cloud_name D) v) eqn:Heq; [| done].
    apply strict_equals_eq in Heq. by rewrite Heq, Hv.
  - rewrite Hsome. cbn [truthy]. right. cbn. by auto.
Qed.

(** C3, as stated, fails, in both revisions.  Over the empty table without
    a default account the claim promises the credentials error to every
    request that passes validation; a request whose [public_id], or whose
    [cloud_name], is the object [{"toString": 1}] passes it and is answered
    500: the conversion to a string throws, of [public_id] before any
    account is looked up, of [cloud_name] in the lookup.  And over the empty
    table with a complete default account, the lookup of "constructor" does
    not fail: it finds the member every object inherits, nothing falls back
    to the default account, and the request is refused. *)
Lemma C3_validated_requests_answered_otherwise :
  let unconvertible := JObj {[ "toString" := JNum "1" ]} in
  let by_public_id : gmap string JsVal := {[ "public_id" := unconvertible ]} in
  let by_cloud_name : gmap string JsVal :=
    <[ "public_id" := JStr "a/b" ]> {[ "cloud_name" := unconvertible ]} in
  let by_inherited_name : gmap string JsVal :=
    <[ "public_id" := JStr "a/b" ]> {[ "cloud_name" := JStr "constructor" ]} in
  let failure :=
    mkOutcome 500 (error_body "Failed to delete media") []
      [mkLog "Error deleting media:"
             (JStr "Cannot convert object to primitive value")] in
  truthy unconvertible = true
  /\ (IndexJs.deleteMedia (JObj ∅) no_default upstream_ok by_public_id = failure
      /\ Part000.deleteMedia (JObj ∅) no_default upstream_ok by_public_id = failure)
  /\ (IndexJs.deleteMedia (JObj ∅) no_default upstream_ok by_cloud_name = failure
      /\ Part000.deleteMedia (JObj ∅) no_default upstream_ok by_cloud_name = failure)
  /\ (IndexJs.getCredsForCloud (JObj ∅) main_default (JStr "constructor")
        = ret (Some (mkCreds (JStr "constructor") JUndefined JUndefined))
      /\ IndexJs.deleteMedia (JObj ∅) main_default upstream_ok by_inherited_name
         = mkOutcome 400 (error_body IndexJs.credentials_error) [] []
      /\ Part000.deleteMedia (JObj ∅) main_default upstream_ok by_inherited_name
         = mkOutcome 400 (error_body Part000.credentials_error) [] []).
Proof. vm_compute. repeat split; reflexivity. Qed.

(** C3, amended: for a request that passes validation and whose [public_id]
    converts to a string, with [cloud_name] the name left by the derivation
    step.
    - If the lookup [getCredsForCloud(cloud_name)] returns [null] and the
      default account has a name, the handlers go on with the default
      account: when it is complete, exactly one outbound request is issued,
      addressed to the default account's cloud and authenticated with its
      key and secret; when it lacks a key or a secret the answer is the
      credentials error.
    - Whenever the account finally selected (the one the lookup returned,
      else the default account if it has a name, else none) is unusable,
      both revisions answer 400 with their credentials error, issue no
      outbound call and log nothing.
    - In particular this is the answer on an empty table without a default
      name, whatever name the request carries, provided the name converts
      to a string. *)
Theorem C3_unusable_credentials_rejected
    (ACCOUNTS : JsVal) (D : Creds) (axios_delete : OutboundCall -> M JsVal)
    (body : gmap string JsVal) (text : string) :
  truthy (field body "public_id") = true ->
  ToString (field body "public_id") = ret text ->
  let cloud_name := derived_cloud_name body in
  (IndexJs.getCredsForCloud ACCOUNTS D cloud_name = ret None ->
   truthy (creds_cloud_name D) = true ->
   (complete D ->
    forall name rt ty,
      ToString (creds_cloud_name D) = ret name ->
      ToString (final_resource_type body) = ret rt ->
      ToString (final_type body) = ret ty ->
      let call :=
        mkCall (endpoint_url name rt ty) (creds_api_key D) (creds_api_secret D)
               [trim text] (shouldInvalidate (field body "invalidate")) in
      calls (IndexJs.deleteMedia ACCOUNTS D axios_delete body) = [call]
      /\ calls (Part000.deleteMedia ACCOUNTS D axios_delete body) = [call])
   /\ (incomplete (Some D) ->
       IndexJs.deleteMedia ACCOUNTS D axios_delete body
         = mkOutcome 400 (error_body IndexJs.credentials_error) [] []
       /\ Part000.deleteMedia ACCOUNTS D axios_delete body
         = mkOutcome 400 (error_body Part000.credentials_error) [] []))
  /\ (forall found,
        IndexJs.getCredsForCloud ACCOUNTS D cloud_name = ret found ->
        incomplete (match found with
                    | Some c => Some c
                    | None => if truthy (creds_cloud_name D) then Some D else None
                    end) ->
        IndexJs.deleteMedia ACCOUNTS D axios_delete body
          = mkOutcome 400 (error_body IndexJs.credentials_error) [] []
        /\ Part000.deleteMedia ACCOUNTS D axios_delete body
          = mkOutcome 400 (error_body Part000.credentials_error) [] [])
  /\ (ACCOUNTS = JObj ∅ -> truthy (creds_cloud_name D) = false ->
      (truthy cloud_name = false \/ exists key, ToString cloud_name = ret key) ->
      IndexJs.deleteMedia ACCOUNTS D axios_delete body
        = mkOutcome 400 (error_body IndexJs.credentials_error) [] []
      /\ Part000.deleteMedia ACCOUNTS D axios_delete body
        = mkOutcome 400 (error_body Part000.credentials_error) [] []).
Proof.
  intros Hpid Htext cloud_name. subst cloud_name.
  split; [| split].
  - intros Hnone HD.
    pose proof (select_creds_found _ _ _ _ Hnone) as Hsel. rewrite HD in Hsel.
    split.
    + intros Hc name rt ty Hn Hrt Hty.
      by apply (deleteMedia_served ACCOUNTS D axios_delete body text D name rt ty).
    + intros Hinc. by apply (deleteMedia_incomplete _ _ _ _ text (Some D)).
  - intros found Hfound Hinc.
    eapply deleteMedia_incomplete; [done | done | | exact Hinc].
    by apply select_creds_found.
  - intros -> HD [Hname | [key Hkey]].
    + eapply (deleteMedia_incomplete _ _ _ _ text None); [done | done | | done].
      rewrite (select_creds_found _ _ _ None), HD; [done |].
      by apply getCredsForCloud_falsy.
    + destruct (truthy (derived_cloud_name body)) eqn:Hname.
      * destruct (select_creds_empty_table D _ key Hname Hkey)
          as (selected & Hsel & Hcases).
        eapply deleteMedia_incomplete; [done | done | exact Hsel |].
        destruct Hcases as [-> | Hinc]; [by rewrite HD | done].
      * eapply (deleteMedia_incomplete _ _ _ _ text None); [done | done | | done].
        rewrite (select_creds_found _ _ _ None), HD; [done |].
        by apply getCredsForCloud_falsy.
Qed.

(** C3 at concrete inputs: the scenario of the specification, and a fallback
    to the default account. *)
Lemma C3_unusable_credentials_rejected_witness :
  let body : gmap string JsVal := {[ "public_id" := JStr "a/b" ]} in
  let other : gmap string JsVal :=
    <[ "public_id" := JStr "a/b" ]> {[ "cloud_name" := JStr "other" ]} in
  (IndexJs.deleteMedia (JObj ∅) no_default upstream_ok body
     = mkOutcome 400 (error_body IndexJs.credentials_error) [] []
   /\ Part000.deleteMedia (JObj ∅) no_default upstream_ok body
     = mkOutcome 400 (error_body Part000.credentials_error) [] [])
  /\ calls (IndexJs.deleteMedia demo_accounts main_default upstream_ok other)
     = [mkCall "https://api.cloudinary.com/v1_1/main/resources/image/upload"
               (JStr "DK") (JStr "DS") ["a/b"] true].
Proof.
  intros body other. split.
  - pose proof (C3_unusable_credentials_rejected (JObj ∅) no_default upstream_ok
                  body "a/b" eq_refl eq_refl) as H.
    exact (proj2 (proj2 H) eq_refl eq_refl (or_introl eq_refl)).
  - pose proof (C3_unusable_credentials_rejected demo_accounts main_default
                  upstream_ok other "a/b" eq_refl eq_refl) as H.
    exact (proj1 (proj1 (proj1 H eq_refl eq_refl)
                    (conj eq_refl (conj eq_refl eq_refl))
                    "main" "image" "upload" eq_refl eq_refl eq_refl)).
Defined.

(** ** C4: derivation of missing fields from [secure_url] *)

Lemma derive_without_url cloud_name resource_type type :
  derive cloud_name JUndefined resource_type type = (cloud_name, resource_type, type).
Proof. unfold derive. simpl. by rewrite andb_false_r. Qed.

(** The handlers use [secure_url] for the derivation and nothing else. *)
Lemma deleteMedia_with_derived ACCOUNTS D axios_delete body :
  IndexJs.deleteMedia ACCOUNTS D axios_delete (with_derived body)
    = IndexJs.deleteMedia ACCOUNTS D axios_delete body
  /\ Part000.deleteMedia ACCOUNTS D axios_delete (with_derived body)
    = Part000.deleteMedia ACCOUNTS D axios_delete body.
Proof.
  unfold IndexJs.deleteMedia, Part000.deleteMedia, with_derived.
  destruct (derive (field body "cloud_name") _ _ _)
    as [[cloud_name resource_type] type] eqn:Hd.
  unfold field in *. simplify_map_eq. cbn [default].
  by rewrite derive_without_url.
Qed.

(** C4, as stated, fails: a request that supplies the empty string as
    [cloud_name] (and no [resource_type] or [type]) together with a URL does
    not keep the supplied name; the name parsed from the URL replaces it and
    the deletion is addressed to that cloud. *)
Lemma C4_supplied_empty_name_replaced :
  let url := JStr "https://res.cloudinary.com/demo/image/upload/v1/a.jpg" in
  let body : gmap string JsVal :=
    <[ "public_id" := JStr "a" ]>
      (<[ "cloud_name" := JStr "" ]> {[ "secure_url" := url ]}) in
  body !! "cloud_name" = Some (JStr "")
  /\ derive (field body "cloud_name") (field body "secure_url")
            (field body "resource_type") (field body "type")
     = (JStr "demo", JStr "image", JStr "upload")
  /\ endpoint <$> calls (IndexJs.deleteMedia demo_accounts no_default upstream_ok body)
     = ["https://api.cloudinary.com/v1_1/demo/resources/image/upload"]
  /\ endpoint <$> calls (Part000.deleteMedia demo_accounts no_default upstream_ok body)
     = ["https://api.cloudinary.com/v1_1/demo/resources/image/upload"].
Proof. vm_compute. auto. Qed.

(** C4, amended: a field counts as missing when it is absent or otherwise
    falsy (the empty string, [null], [false], [0]).  When at least one of
    [cloud_name], [resource_type], [type] is missing in that sense and
    [secure_url] is truthy, the derivation step replaces exactly the missing
    fields by the corresponding fields of [parseFromUrl(secure_url)]; a field
    supplied with a truthy value always keeps it; and the handlers answer as
    they do on the request that carries the derived values instead of the
    URL. *)
Theorem C4_derive_fills_falsy_fields
    (cloud_name secure_url resource_type type : JsVal) :
  ((truthy cloud_name = false \/ truthy resource_type = false \/ truthy type = false) ->
   truthy secure_url = true ->
   derive cloud_name secure_url resource_type type
     = (if truthy cloud_name then cloud_name
        else parsed_cloud_name (parseFromUrl secure_url),
        if truthy resource_type then resource_type
        else parsed_resource_type (parseFromUrl secure_url),
        if truthy type then type
        else parsed_type (parseFromUrl secure_url)))
  /\ (let '(cloud_name', resource_type', type') :=
        derive cloud_name secure_url resource_type type in
      (truthy cloud_name = true -> cloud_name' = cloud_name)
      /\ (truthy resource_type = true -> resource_type' = resource_type)
      /\ (truthy type = true -> type' = type))
  /\ (forall ACCOUNTS D axios_delete body,
        IndexJs.deleteMedia ACCOUNTS D axios_delete body
          = IndexJs.deleteMedia ACCOUNTS D axios_delete (with_derived body)
        /\ Part000.deleteMedia ACCOUNTS D axios_delete body
          = Part000.deleteMedia ACCOUNTS D axios_delete (with_derived body)).
Proof.
  split; [| split].
  - intros Hmissing Hurl. unfold derive, js_or. rewrite Hurl.
    destruct Hmissing as [-> | [-> | ->]]; simpl; by rewrite ?orb_true_r.
  - unfold derive, js_or.
    destruct (_ && _); [| done].
    repeat split; by intros ->.
  - intros ACCOUNTS D axios_delete body.
    by destruct (deleteMedia_with_derived ACCOUNTS D axios_delete body) as [-> ->].
Qed.

(** C4 at a concrete input. *)
Lemma C4_derive_fills_falsy_fields_witness :
  let url := JStr "https://res.cloudinary.com/demo/video/private/v1/a.mp4" in
  derive JUndefined url (JStr "image") JUndefined
    = (JStr "demo", JStr "image", JStr "private").
Proof.
  intros url.
  exact (proj1 (C4_derive_fills_falsy_fields JUndefined url (JStr "image") JUndefined)
               (or_introl eq_refl) eq_refl).
Defined.

(** ** The outbound request *)

(** A request a handler has issued is the one built for the account it
    selected, and the answer is decided by what the remote makes of it. *)
Lemma run_cases_calls select unusable msg axios_delete body o call :
  run_cases select unusable msg axios_delete body o ->
  In call (calls o) ->
  truthy (field body "public_id") = true
  /\ exists text c,
      ToString (field body "public_id") = ret text
      /\ select (derived_cloud_name body) = ret (Some c)
      /\ unusable (Some c) = false
      /\ call_for body (trim text) c = ret call
      /\ o = match axios_delete call with
             | inl err => caught err [call]
             | inr data => mkOutcome 200 data [call] []
             end.
Proof.
  intros [[_ ->] | [Hpid [(err & _ & ->) | (text & Htext & H)]]]; try by intros [].
  destruct H as [(err & _ & ->) | [(sel & _ & _ & ->) | (c & Hsel & Hu & ->)]];
    try by intros [].
  intros Hin. split; [done |]. exists text, c.
  destruct (call_for body (trim text) c) as [err | call'] eqn:Hcall;
    cbn [dispatch] in *; [by destruct Hin |].
  assert (call = call') as ->
    by (destruct (axios_delete call'); simpl in Hin; by destruct Hin).
  done.
Qed.

(** What a request built by [call_for] carries. *)
Lemma call_for_shape body public_id c call :
  call_for body public_id c = ret call ->
  exists name rt ty,
    ToString (creds_cloud_name c) = ret name
    /\ ToString (final_resource_type body) = ret rt
    /\ ToString (final_type body) = ret ty
    /\ call = mkCall (endpoint_url name rt ty) (creds_api_key c) (creds_api_secret c)
                     [public_id] (shouldInvalidate (field body "invalidate")).
Proof.
  unfold call_for, endpoint_of.
  destruct (ToString (creds_cloud_name c)) as [e | name]; [discriminate |].
  destruct (ToString (final_resource_type body)) as [e | rt]; [discriminate |].
  destruct (ToString (final_type body)) as [e | ty]; [discriminate |].
  cbn. intros [= <-]. by exists name, rt, ty.
Qed.

(** ** C5: defaults and the invalidate flag *)

Lemma shouldInvalidate_false v : shouldInvalidate v = false <-> v = JBool false.
Proof.
  unfold shouldInvalidate. rewrite negb_false_iff. split.
  - apply strict_equals_eq.
  - by intros ->.
Qed.

(** C5: take a request that passes validation, whose [public_id] converts to
    a string and for which a complete account [c] is selected, and let
    [resource_type] and [type] be the fields left by the derivation step.
    Then both revisions issue exactly one outbound request.  It is addressed
    with [resource_type], or with "image" when that is absent (or otherwise
    falsy), and with [type], or with "upload" when that is absent (or
    otherwise falsy).  Its [invalidate] flag is [false] exactly when the
    request body carries the boolean [false], and [true] for every other
    value and when the field is absent. *)
Theorem C5_defaults_and_invalidate
    (ACCOUNTS : JsVal) (D : Creds) (axios_delete : OutboundCall -> M JsVal)
    (body : gmap string JsVal) (text name : string) (c : Creds) :
  truthy (field body "public_id") = true ->
  ToString (field body "public_id") = ret text ->
  IndexJs.select_creds ACCOUNTS D (derived_cloud_name body) = ret (Some c) ->
  complete c ->
  ToString (creds_cloud_name c) = ret name ->
  let '(_, resource_type, type) :=
    derive (field body "cloud_name") (field body "secure_url")
           (field body "resource_type") (field body "type") in
  forall rt ty,
    ToString (if truthy resource_type then resource_type else JStr "image") = ret rt ->
    ToString (if truthy type then type else JStr "upload") = ret ty ->
    let call :=
      mkCall ("https://api.cloudinary.com/v1_1/" +:+ name +:+ "/resources/"
              +:+ rt +:+ "/" +:+ ty)
             (creds_api_key c) (creds_api_secret c) [trim text]
             (negb (strict_equals (field body "invalidate") (JBool false))) in
    calls (IndexJs.deleteMedia ACCOUNTS D axios_delete body) = [call]
    /\ calls (Part000.deleteMedia ACCOUNTS D axios_delete body) = [call]
    /\ (truthy resource_type = false -> rt = "image")
    /\ (truthy type = false -> ty = "upload")
    /\ (data_invalidate call = false <-> field body "invalidate" = JBool false)
    /\ (field body "invalidate" <> JBool false -> data_invalidate call = true).
Proof.
  intros Hpid Htext Hsel Hc Hname.
  pose proof (deleteMedia_served ACCOUNTS D axios_delete body text c name) as Hserved.
  unfold final_resource_type, final_type, js_or in Hserved.
  destruct (derive _ _ _ _) as [[cn resource_type] type].
  intros rt ty Hrt Hty call.
  destruct (Hserved rt ty Hpid Htext Hsel Hc Hname Hrt Hty) as [Hi Hp].
  split; [exact Hi |]. split; [exact Hp |].
  split; [| split; [| split]].
  - intros Hf. rewrite Hf in Hrt. by injection Hrt as <-.
  - intros Hf. rewrite Hf in Hty. by injection Hty as <-.
  - apply shouldInvalidate_false.
  - intros Hne. subst call. cbn [data_invalidate].
    destruct (strict_equals _ _) eqn:E; [| done].
    by apply strict_equals_eq in E.
Qed.

(** C5 at a concrete input: nothing but the identifier and the cloud is
    given, and [invalidate] is the string "false". *)
Lemma C5_defaults_and_invalidate_witness :
  let body : gmap string JsVal :=
    <[ "public_id" := JStr "a/b" ]>
      (<[ "cloud_name" := JStr "demo" ]> {[ "invalidate" := JStr "false" ]}) in
  calls (IndexJs.deleteMedia demo_accounts no_default upstream_ok body)
  = [mkCall "https://api.cloudinary.com/v1_1/demo/resources/image/upload"
            (JStr "K") (JStr "S") ["a/b"] true].
Proof.
  intros body.
  exact (proj1 (C5_defaults_and_invalidate demo_accounts no_default upstream_ok
                  body "a/b" "demo" (mkCreds (JStr "demo") (JStr "K") (JStr "S"))
                  eq_refl eq_refl eq_refl (conj eq_refl (conj eq_refl eq_refl))
                  eq_refl "image" "upload" eq_refl eq_refl)).
Defined.

(** ** Strings and the matcher *)

Lemma string_app_cons a (p s : string) : String a p +:+ s = String a (p +:+ s).
Proof. reflexivity. Qed.

Lemma string_app_nil (s : string) : "" +:+ s = s.
Proof. reflexivity. Qed.

Lemma append_assoc (a b c : string) : (a +:+ b) +:+ c = a +:+ (b +:+ c).
Proof. induction a as [| x a IH]; [done |]. by rewrite !string_app_cons, IH. Qed.

Lemma length_append (a b : string) :
  String.length (a +:+ b) = String.length a + String.length b.
Proof. induction a as [| x a IH]; simpl; [done | by rewrite IH]. Qed.

Lemma substring_prefix (a b : string) :
  String.substring 0 (String.length a) (a +:+ b) = a.
Proof.
  induction a as [| x a IH]; simpl.
  - by destruct b.
  - by rewrite IH.
Qed.

Lemma consumed_append (a b : string) : consumed (a +:+ b) b = a.
Proof.
  unfold consumed. rewrite length_append.
  replace (String.length a + String.length b - String.length b)
    with (String.length a) by lia.
  apply substring_prefix.
Qed.

Section MatcherFacts.
Context {R : Type}.
Implicit Types (k : string -> captures -> option R) (caps : captures).

Lemma rmatch_Cat r1 r2 s caps k :
  rmatch (Cat r1 r2) s caps k = rmatch r1 s caps (fun s1 c1 => rmatch r2 s1 c1 k).
Proof. reflexivity. Qed.

Lemma rmatch_Chr_eq c s caps k : rmatch (Chr c) (String c s) caps k = k s caps.
Proof. simpl. by rewrite Ascii.eqb_refl. Qed.

(** A literal consumes itself. *)
Lemma rmatch_lit p s caps k : rmatch (lit p) (p +:+ s) caps k = k s caps.
Proof.
  revert caps k. induction p as [| a p IH]; intros caps k; simpl; [done |].
  by rewrite Ascii.eqb_refl, IH.
Qed.

(** Greedy iteration of [[^c]] over a run [seg] that ends at a [c]: all of
    [seg] is consumed when the continuation accepts there. *)
Lemma repeat_matcher_run c seg rest caps k fuel x :
  occurs c seg = false ->
  String.length seg <= fuel ->
  k (String c rest) caps = Some x ->
  repeat_matcher (rmatch (NotChr c)) k fuel (seg +:+ String c rest) caps = Some x.
Proof.
  revert fuel. induction seg as [| a seg IH]; intros fuel Hocc Hfuel Hk.
  - destruct fuel as [| fuel]; simpl; [done |].
    by rewrite Ascii.eqb_refl.
  - simpl in Hocc. apply orb_false_elim in Hocc as [Ha Hocc].
    destruct fuel as [| fuel]; simpl in *; [lia |].
    rewrite Ha.
    assert (Hlt : Nat.ltb (String.length (seg +:+ String c rest))
                          (S (String.length (seg +:+ String c rest))) = true)
      by (apply Nat.ltb_lt; lia).
    rewrite Hlt, IH; [done | done | lia | done].
Qed.

Lemma rmatch_plus_run c seg rest caps k x :
  seg <> "" ->
  occurs c seg = false ->
  k (String c rest) caps = Some x ->
  rmatch (Plus (NotChr c)) (seg +:+ String c rest) caps k = Some x.
Proof.
  intros Hne Hocc Hk. destruct seg as [| a seg]; [done |].
  simpl in Hocc. apply orb_false_elim in Hocc as [Ha Hocc].
  simpl. rewrite Ha.
  apply repeat_matcher_run; [done | | done].
  rewrite length_append. lia.
Qed.

(** A group around such a run captures the run. *)
Lemma rmatch_group_run n c seg rest caps k x :
  seg <> "" ->
  occurs c seg = false ->
  k (String c rest) (<[n := seg]> caps) = Some x ->
  rmatch (Group n (Plus (NotChr c))) (seg +:+ String c rest) caps k = Some x.
Proof.
  intros Hne Hocc Hk. cbn [rmatch].
  change (rmatch (Plus (NotChr c)) (seg +:+ String c rest) caps
            (fun s1 c1 => k s1 (<[n := consumed (seg +:+ String c rest) s1]> c1))
          = Some x).
  apply rmatch_plus_run; [done | done |].
  by rewrite consumed_append.
Qed.

(** A group around a literal alternative captures the literal. *)
Lemma rmatch_group_lit_l n p q s caps k x :
  k s (<[n := p]> caps) = Some x ->
  rmatch (Group n (Alt (lit p) q)) (p +:+ s) caps k = Some x.
Proof.
  intros Hk. cbn [rmatch]. rewrite rmatch_lit, consumed_append. by rewrite Hk.
Qed.
End MatcherFacts.

Lemma exec_here r s m :
  rmatch r s ∅ (fun rest caps => Some (<[0 := consumed s rest]> caps)) = Some m ->
  exec r s = Some m.
Proof. intros H. destruct s; simpl; simpl in H; by rewrite H. Qed.

Lemma exec_skip r a s :
  rmatch r (String a s) ∅
         (fun rest caps => Some (<[0 := consumed (String a s) rest]> caps)) = None ->
  exec r (String a s) = exec r s.
Proof. intros H. cbn [exec]. by rewrite H. Qed.
(** ** C6: what [parseFromUrl] extracts *)

(** C6, as stated, fails: the pattern names the host [res.cloudinary.com];
    a URL of the stated form on another host is not parsed, all three
    fields stay absent, and a request that relies on it finds no account
    although the table has one for the tenant in the URL. *)
Lemma C6_other_host_not_parsed :
  let url := JStr "https://res.example.com/mycloud/image/upload/v1/a/b.jpg" in
  let body : gmap string JsVal :=
    <[ "public_id" := JStr "a/b" ]> {[ "secure_url" := url ]} in
  let ACCOUNTS :=
    JObj {[ "mycloud" := JObj (<[ "api_key" := JStr "K" ]>
                                 {[ "api_secret" := JStr "S" ]}) ]} in
  parseFromUrl url = mkParsed JUndefined JUndefined JUndefined
  /\ IndexJs.deleteMedia ACCOUNTS no_default upstream_ok body
     = mkOutcome 400 (error_body IndexJs.credentials_error) [] []
  /\ Part000.deleteMedia ACCOUNTS no_default upstream_ok body
     = mkOutcome 400 (error_body Part000.credentials_error) [] [].
Proof. vm_compute. auto. Qed.

(** The pattern starts with the character [r]: no match starts elsewhere. *)
Lemma rmatch_secure_url_first_char {R} a s caps (k : string -> captures -> option R) :
  a <> "r"%char -> rmatch secure_url_pattern (String a s) caps k = None.
Proof.
  intros Ha. unfold secure_url_pattern. rewrite rmatch_Cat.
  change (lit "res.cloudinary.com/") with (Cat (Chr "r") (lit "es.cloudinary.com/")).
  rewrite rmatch_Cat. cbn [rmatch].
  by apply Ascii.eqb_neq in Ha as ->.
Qed.

Lemma exec_secure_url_skip prefix s :
  occurs "r" prefix = false ->
  exec secure_url_pattern (prefix +:+ s) = exec secure_url_pattern s.
Proof.
  induction prefix as [| a prefix IH]; [done |].
  intros Hocc. cbn [occurs] in Hocc. apply orb_false_elim in Hocc as [Ha Hocc].
  rewrite string_app_cons, exec_skip; [by apply IH |].
  apply rmatch_secure_url_first_char. by apply Ascii.eqb_neq.
Qed.

(** The match found at a position where the host, a tenant segment, one of
    the two resource types and a further segment follow each other. *)
Lemma exec_secure_url_image tenant type rest :
  tenant <> "" -> occurs "/" tenant = false ->
  type <> "" -> occurs "/" type = false ->
  exec secure_url_pattern
       ("res.cloudinary.com/" +:+ tenant +:+ "/image/" +:+ type +:+ "/" +:+ rest)
  = Some (<[0 := "res.cloudinary.com/" +:+ tenant +:+ "/image/" +:+ type +:+ "/"]>
            (<[3 := type]> (<[2 := "image"]> (<[1 := tenant]> ∅)))).
Proof.
  intros Hne Hocc Hne' Hocc'. apply exec_here.
  unfold secure_url_pattern.
  rewrite rmatch_Cat, rmatch_lit, rmatch_Cat.
  apply (rmatch_group_run 1 "/" tenant ("image/" +:+ type +:+ "/" +:+ rest));
    [done | done |].
  rewrite rmatch_Cat, rmatch_Chr_eq, rmatch_Cat.
  apply (rmatch_group_lit_l 2 "image" (lit "video") ("/" +:+ type +:+ "/" +:+ rest)).
  rewrite rmatch_Cat.
  change ("/" +:+ type +:+ "/" +:+ rest) with (String "/" (type +:+ "/" +:+ rest)).
  rewrite rmatch_Chr_eq, rmatch_Cat.
  apply (rmatch_group_run 3 "/" type rest); [done | done |].
  rewrite rmatch_Chr_eq. do 2 f_equal.
  transitivity
    (consumed (("res.cloudinary.com/" +:+ tenant +:+ "/image/" +:+ type +:+ "/")
               +:+ rest) rest);
    [| apply consumed_append].
  by rewrite !append_assoc.
Qed.

(** C6, amended: for every URL [https://res.cloudinary.com/<tenant>/image/upload/...]
    on the host the pattern names, with a non-empty tenant segment free of
    [/], [parseFromUrl] extracts the tenant as [cloud_name], "image" as
    [resource_type] and "upload" as [type]. *)
Theorem C6_parse_cloudinary_image_upload (tenant rest : string) :
  tenant <> "" ->
  occurs "/" tenant = false ->
  parseFromUrl
    (JStr ("https://res.cloudinary.com/" +:+ tenant +:+ "/image/upload/" +:+ rest))
  = mkParsed (JStr tenant) (JStr "image") (JStr "upload").
Proof.
  intros Hne Hocc. unfold parseFromUrl, String_match.
  change ("https://res.cloudinary.com/" +:+ tenant +:+ "/image/upload/" +:+ rest)
    with ("https://" +:+
          ("res.cloudinary.com/" +:+ tenant +:+ "/image/" +:+ "upload" +:+ "/" +:+ rest)).
  rewrite exec_secure_url_skip by reflexivity.
  rewrite exec_secure_url_image by done.
  unfold match_elem. by simplify_map_eq.
Qed.

(** C6 at a concrete input. *)
Lemma C6_parse_cloudinary_image_upload_witness :
  parseFromUrl (JStr "https://res.cloudinary.com/mycloud/image/upload/v1/a/b.jpg")
  = mkParsed (JStr "mycloud") (JStr "image") (JStr "upload").
Proof.
  apply (C6_parse_cloudinary_image_upload "mycloud" "v1/a/b.jpg").
  - discriminate.
  - reflexivity.
Defined.
(** ** The matcher against the declarative reading of patterns *)

Section MatcherSound.
Context {R : Type}.
Implicit Types (k : string -> captures -> option R) (caps : captures).

(** Further iterations either stop where they are or extend the match. *)
Lemma repeat_matcher_sound r k x :
  (forall s caps k', rmatch r s caps k' = Some x ->
     exists s1 caps1, matches r s caps s1 caps1 /\ k' s1 caps1 = Some x) ->
  forall fuel s caps,
    repeat_matcher (rmatch r) k fuel s caps = Some x ->
    k s caps = Some x
    \/ exists s1 caps1, matches (Plus r) s caps s1 caps1 /\ k s1 caps1 = Some x.
Proof.
  intros Hr. induction fuel as [| fuel IH]; intros s caps; cbn [repeat_matcher].
  - by left.
  - destruct (rmatch r s caps _) as [y |] eqn:Hm.
    + intros [= ->]. apply Hr in Hm as (s1 & caps1 & Hone & Hk).
      destruct (Nat.ltb _ _); [| discriminate].
      apply IH in Hk as [Hk | (s2 & caps2 & Hmore & Hk)]; right.
      * exists s1, caps1. split; [by apply matches_Plus_one | done].
      * exists s2, caps2. split; [by eapply matches_Plus_more | done].
    + by left.
Qed.

(** Whatever the backtracking matcher finds is a match of the pattern, and
    the continuation accepted where it ended. *)
Lemma rmatch_sound r : forall s caps k x,
  rmatch r s caps k = Some x ->
  exists s1 caps1, matches r s caps s1 caps1 /\ k s1 caps1 = Some x.
Proof.
  induction r as [| c | c | r1 IH1 r2 IH2 | r1 IH1 r2 IH2 | r1 IH1 | n r1 IH1];
    intros s caps k x; cbn [rmatch].
  - intros Hk. exists s, caps. split; [constructor | done].
  - destruct s as [| a s]; [discriminate |].
    destruct (Ascii.eqb a c) eqn:Hac; [| discriminate].
    apply Ascii.eqb_eq in Hac as ->. intros Hk.
    exists s, caps. split; [constructor | done].
  - destruct s as [| a s]; [discriminate |].
    destruct (Ascii.eqb a c) eqn:Hac; [discriminate |].
    apply Ascii.eqb_neq in Hac. intros Hk.
    exists s, caps. split; [by constructor | done].
  - intros H. apply IH1 in H as (s1 & caps1 & H1 & H).
    apply IH2 in H as (s2 & caps2 & H2 & Hk).
    exists s2, caps2. split; [by econstructor | done].
  - destruct (rmatch r1 s caps k) as [y |] eqn:Hl.
    + intros [= ->]. apply IH1 in Hl as (s1 & caps1 & H1 & Hk).
      exists s1, caps1. split; [by apply matches_Alt_l | done].
    + intros H. apply IH2 in H as (s1 & caps1 & H2 & Hk).
      exists s1, caps1. split; [by apply matches_Alt_r | done].
  - intros H. apply IH1 in H as (s1 & caps1 & H1 & H).
    apply (repeat_matcher_sound r1 k x) in H
      as [Hk | (s2 & caps2 & Hmore & Hk)]; [| | by intros; apply IH1].
    + exists s1, caps1. split; [by apply matches_Plus_one | done].
    + exists s2, caps2. split; [by eapply matches_Plus_more | done].
  - intros H. apply IH1 in H as (s1 & caps1 & H1 & Hk).
    eexists s1, _. split; [by apply matches_Group | done].
Qed.
End MatcherSound.

(** A match reported by [exec] starts somewhere in the input and is a match
    of the pattern from there. *)
Lemma exec_sound r s m :
  exec r s = Some m ->
  exists before s0 rest caps,
    s = before +:+ s0
    /\ matches r s0 ∅ rest caps
    /\ m = <[0 := consumed s0 rest]> caps.
Proof.
  induction s as [| a s IH]; cbn [exec].
  - destruct (rmatch r "" ∅ _) as [m' |] eqn:Hm; [| discriminate].
    intros [= ->]. apply rmatch_sound in Hm as (rest & caps & Hmatch & [= <-]).
    by exists "", "", rest, caps.
  - destruct (rmatch r (String a s) ∅ _) as [m' |] eqn:Hm.
    + intros [= ->]. apply rmatch_sound in Hm as (rest & caps & Hmatch & [= <-]).
      by exists "", (String a s), rest, caps.
    + intros H. apply IH in H as (before & s0 & rest & caps & -> & Hmatch & ->).
      by exists (String a before), s0, rest, caps.
Qed.

(** A match that exists further to the right does not get lost. *)
Lemma exec_prefix r before s m :
  exec r s = Some m -> exists m', exec r (before +:+ s) = Some m'.
Proof.
  intros Hm. induction before as [| a before IH]; [by eauto |].
  rewrite string_app_cons. cbn [exec].
  destruct (rmatch r _ ∅ _); by eauto.
Qed.

Lemma matches_Chr_inv c s caps rest caps' :
  matches (Chr c) s caps rest caps' -> s = String c rest /\ caps' = caps.
Proof. by inversion 1. Qed.

Lemma matches_Cat_inv r1 r2 s caps rest caps' :
  matches (Cat r1 r2) s caps rest caps' ->
  exists s1 caps1, matches r1 s caps s1 caps1 /\ matches r2 s1 caps1 rest caps'.
Proof. inversion 1; subst. by eauto. Qed.

Lemma matches_Alt_inv r1 r2 s caps rest caps' :
  matches (Alt r1 r2) s caps rest caps' ->
  matches r1 s caps rest caps' \/ matches r2 s caps rest caps'.
Proof. inversion 1; subst; by auto. Qed.

Lemma matches_Group_inv n r s caps rest caps' :
  matches (Group n r) s caps rest caps' ->
  exists caps0, matches r s caps rest caps0 /\ caps' = <[n := consumed s rest]> caps0.
Proof. inversion 1; subst. by eauto. Qed.

Lemma matches_lit_inv p s caps rest caps' :
  matches (lit p) s caps rest caps' -> s = p +:+ rest /\ caps' = caps.
Proof.
  revert s caps. induction p as [| a p IH]; intros s caps; cbn [lit].
  - by inversion 1.
  - intros (s1 & caps1 & [-> ->]%matches_Chr_inv & [-> ->]%IH)%matches_Cat_inv.
    done.
Qed.

(** What [[^c]+] consumes is a non-empty run free of [c]; it captures
    nothing. *)
Lemma matches_run_inv c s caps rest caps' :
  matches (Plus (NotChr c)) s caps rest caps' ->
  caps' = caps
  /\ exists seg, seg <> "" /\ occurs c seg = false /\ s = seg +:+ rest.
Proof.
  assert (Hone : forall s caps rest caps',
            matches (NotChr c) s caps rest caps' ->
            caps' = caps /\ exists a, a <> c /\ s = String a rest)
    by (inversion 1; subst; by eauto).
  intros H. remember (Plus (NotChr c)) as r eqn:Hr.
  induction H as [| | | | | | r s caps s1 caps1 H1
                    | r s caps s1 caps1 s2 caps2 H1 _ H2 IH |];
    try discriminate; injection Hr as ->.
  - apply Hone in H1 as (-> & a & Ha & ->). split; [done |].
    exists (String a ""). split; [done |]. split; [| done].
    cbn. apply Ascii.eqb_neq in Ha. by rewrite Ha.
  - apply Hone in H1 as (-> & a & Ha & ->).
    destruct (IH eq_refl) as (-> & seg & Hne & Hocc & ->). split; [done |].
    exists (String a seg). split; [done |]. split; [| done].
    cbn. apply Ascii.eqb_neq in Ha. by rewrite Ha.
Qed.

(** What a match of the URL pattern looks like. *)
Lemma matches_secure_url s rest caps :
  matches secure_url_pattern s ∅ rest caps ->
  exists tenant resource_type type,
    segment tenant
    /\ (resource_type = "image" \/ resource_type = "video")
    /\ segment type
    /\ s = locator tenant resource_type type +:+ rest
    /\ caps = <[3 := type]> (<[2 := resource_type]> (<[1 := tenant]> ∅)).
Proof.
  unfold secure_url_pattern.
  intros (s1 & c1 & [-> ->]%matches_lit_inv & H)%matches_Cat_inv.
  apply matches_Cat_inv in H as (s2 & c2 & H1 & H).
  apply matches_Group_inv in H1
    as (c0 & (-> & tenant & Hne1 & Hocc1 & ->)%matches_run_inv & ->).
  rewrite consumed_append in H.
  apply matches_Cat_inv in H as (s3 & c3 & [-> ->]%matches_Chr_inv & H).
  apply matches_Cat_inv in H as (s4 & c4 & H2 & H).
  apply matches_Group_inv in H2 as (c0 & H2 & ->).
  assert (Hrt : exists rt, (rt = "image" \/ rt = "video")
                           /\ s3 = rt +:+ s4 /\ c0 = <[1 := tenant]> ∅).
  { apply matches_Alt_inv in H2 as [[-> ->]%matches_lit_inv | [-> ->]%matches_lit_inv];
      by eauto. }
  destruct Hrt as (rt & Hrt & -> & ->). rewrite consumed_append in H.
  apply matches_Cat_inv in H as (s5 & c5 & [-> ->]%matches_Chr_inv & H).
  apply matches_Cat_inv in H as (s6 & c6 & H3 & [-> ->]%matches_Chr_inv).
  apply matches_Group_inv in H3
    as (c7 & (-> & type & Hne3 & Hocc3 & ->)%matches_run_inv & ->).
  rewrite consumed_append.
  exists tenant, rt, type. split; [done |]. split; [done |]. split; [done |].
  split; [| done].
  unfold locator. by rewrite !append_assoc.
Qed.

(** ** C7: parse failures *)

(** Where no locator occurs, the pattern matches nowhere. *)
Lemma parseFromUrl_no_locator v : no_locator v -> parseFromUrl v = empty_parsed.
Proof.
  intros Hno. destruct v as [| | b | r | s | elems | props | p k]; try reflexivity.
  unfold parseFromUrl, String_match.
  destruct (exec secure_url_pattern s) as [m |] eqn:Hm; [| done].
  apply exec_sound in Hm as (before & s0 & rest & caps & -> & Hmatch & ->).
  apply matches_secure_url in Hmatch
    as (tenant & rt & type & Ht & Hrt & Hty & -> & ->).
  by destruct (Hno before tenant rt type rest).
Qed.

(** A falsy name selects the same account as no name at all. *)
Lemma select_creds_falsy ACCOUNTS D v :
  truthy v = false ->
  IndexJs.select_creds ACCOUNTS D v = IndexJs.select_creds ACCOUNTS D JUndefined
  /\ Part000.select_creds ACCOUNTS D v = Part000.select_creds ACCOUNTS D JUndefined.
Proof.
  intros Hv. unfold IndexJs.select_creds, Part000.select_creds.
  destruct (getCredsForCloud_falsy ACCOUNTS D v Hv) as [-> ->].
  by destruct (getCredsForCloud_falsy ACCOUNTS D JUndefined eq_refl) as [-> ->].
Qed.

Lemma js_or_undefined_default v d :
  js_or (js_or v JUndefined) (JStr d) = js_or v (JStr d).
Proof. unfold js_or. by destruct (truthy v) eqn:E; [rewrite E |]. Qed.

(** When the URL does not parse, the handlers answer as if it had not been
    sent. *)
Lemma deleteMedia_parse_failure ACCOUNTS D axios_delete body :
  parseFromUrl (field body "secure_url") = empty_parsed ->
  IndexJs.deleteMedia ACCOUNTS D axios_delete body
    = IndexJs.deleteMedia ACCOUNTS D axios_delete (delete "secure_url" body)
  /\ Part000.deleteMedia ACCOUNTS D axios_delete body
    = Part000.deleteMedia ACCOUNTS D axios_delete (delete "secure_url" body).
Proof.
  intros Hparse.
  unfold IndexJs.deleteMedia, Part000.deleteMedia.
  assert (Hf : forall key, key <> "secure_url" ->
            field (delete "secure_url" body) key = field body key)
    by (intros key Hkey; unfold field; by rewrite lookup_delete_ne).
  assert (Hu : field (delete "secure_url" body) "secure_url" = JUndefined)
    by (unfold field; by rewrite lookup_delete_eq).
  rewrite (Hf "public_id"), (Hf "cloud_name"), (Hf "resource_type"),
    (Hf "type"), (Hf "invalidate"), Hu by done.
  rewrite derive_without_url.
  destruct (truthy (field body "public_id")); cbn [negb]; [| done].
  destruct (ToString (field body "public_id")) as [err | text]; [done |].
  unfold derive. rewrite Hparse. cbn [empty_parsed parsed_cloud_name
    parsed_resource_type parsed_type].
  destruct (_ && _); [| done].
  rewrite !js_or_undefined_default.
  destruct (truthy (field body "cloud_name")) eqn:Hcn.
  - by rewrite (js_or_truthy _ _ Hcn).
  - rewrite (js_or_falsy _ _ Hcn).
    by destruct (select_creds_falsy ACCOUNTS D _ Hcn) as [-> ->].
Qed.

(** After a parse failure the name is the one the request gave, and an
    absent resource type and type become the defaults. *)
Lemma parse_failure_fields ACCOUNTS D body :
  parseFromUrl (field body "secure_url") = empty_parsed ->
  IndexJs.select_creds ACCOUNTS D (derived_cloud_name body)
    = IndexJs.select_creds ACCOUNTS D (field body "cloud_name")
  /\ (truthy (field body "resource_type") = false ->
      final_resource_type body = JStr "image")
  /\ (truthy (field body "type") = false -> final_type body = JStr "upload").
Proof.
  intros Hparse.
  unfold derived_cloud_name, final_resource_type, final_type, derive.
  rewrite Hparse. cbn [empty_parsed parsed_cloud_name parsed_resource_type parsed_type].
  destruct (_ && _).
  - split; [| split].
    + destruct (truthy (field body "cloud_name")) eqn:Hcn.
      * by rewrite (js_or_truthy _ _ Hcn).
      * rewrite (js_or_falsy _ _ Hcn).
        by destruct (select_creds_falsy ACCOUNTS D _ Hcn) as [-> _].
    + intros Hrt. by rewrite js_or_undefined_default, js_or_falsy.
    + intros Hty. by rewrite js_or_undefined_default, js_or_falsy.
  - split; [done |]. split; intros H; by rewrite js_or_falsy.
Qed.

(** C7: [parseFromUrl] is a function into [Parsed] and has no way to throw.
    On every input in which no locator
    [res.cloudinary.com/<tenant>/<image|video>/<type>/] occurs, in particular
    on every input that is not a string, it returns the empty object: all
    three fields absent.  The handlers then go on with defaults: a request
    that passes validation and gives no resource type and no type, for which
    the name as the request gave it selects a complete account, gets exactly
    one outbound request, addressed to "image" and "upload"; a request whose
    name stays absent, with no default account to fall back to, gets the
    credentials error; and every request is answered as the same request
    without [secure_url]. *)
Theorem C7_parse_failure_is_empty_result :
  (forall v, no_locator v ->
     parseFromUrl v = mkParsed JUndefined JUndefined JUndefined)
  /\ (forall v, (forall s, v <> JStr s) -> no_locator v)
  /\ (forall ACCOUNTS D axios_delete body text,
      no_locator (field body "secure_url") ->
      truthy (field body "public_id") = true ->
      ToString (field body "public_id") = ret text ->
      (forall c name,
         truthy (field body "resource_type") = false ->
         truthy (field body "type") = false ->
         IndexJs.select_creds ACCOUNTS D (field body "cloud_name") = ret (Some c) ->
         complete c ->
         ToString (creds_cloud_name c) = ret name ->
         let call :=
           mkCall ("https://api.cloudinary.com/v1_1/" +:+ name
                   +:+ "/resources/image/upload")
                  (creds_api_key c) (creds_api_secret c) [trim text]
                  (shouldInvalidate (field body "invalidate")) in
         calls (IndexJs.deleteMedia ACCOUNTS D axios_delete body) = [call]
         /\ calls (Part000.deleteMedia ACCOUNTS D axios_delete body) = [call])
      /\ (truthy (field body "cloud_name") = false ->
          truthy (creds_cloud_name D) = false ->
          IndexJs.deleteMedia ACCOUNTS D axios_delete body
            = mkOutcome 400 (error_body IndexJs.credentials_error) [] []
          /\ Part000.deleteMedia ACCOUNTS D axios_delete body
            = mkOutcome 400 (error_body Part000.credentials_error) [] []))
  /\ (forall ACCOUNTS D axios_delete body,
      no_locator (field body "secure_url") ->
      IndexJs.deleteMedia ACCOUNTS D axios_delete body
        = IndexJs.deleteMedia ACCOUNTS D axios_delete (delete "secure_url" body)
      /\ Part000.deleteMedia ACCOUNTS D axios_delete body
        = Part000.deleteMedia ACCOUNTS D axios_delete (delete "secure_url" body)).
Proof.
  split; [| split; [| split]].
  - apply parseFromUrl_no_locator.
  - intros v Hv before tenant rt type rest _ _ _. apply Hv.
  - intros ACCOUNTS D axios_delete body text Hno%parseFromUrl_no_locator Hpid Htext.
    destruct (parse_failure_fields ACCOUNTS D body Hno) as (Hsel & Hrt & Hty).
    split.
    + intros c name Hrtf Htyf Hc Hcomplete Hname call. subst call.
      rewrite <- Hsel in Hc.
      change ("https://api.cloudinary.com/v1_1/" +:+ name +:+ "/resources/image/upload")
        with (endpoint_url name "image" "upload").
      apply (deleteMedia_served ACCOUNTS D axios_delete body text c name
               "image" "upload"); try done.
      * by rewrite (Hrt Hrtf).
      * by rewrite (Hty Htyf).
    + intros Hcn HD.
      apply (deleteMedia_incomplete _ _ _ _ text None); [done | done | | done].
      rewrite Hsel, (select_creds_found _ _ _ None), HD; [done |].
      by apply getCredsForCloud_falsy.
  - intros ACCOUNTS D axios_delete body Hno%parseFromUrl_no_locator.
    by apply deleteMedia_parse_failure.
Qed.

(** C7 at concrete inputs: a number and a text without a locator in place of
    the URL. *)
Lemma C7_parse_failure_is_empty_result_witness :
  let body : gmap string JsVal :=
    <[ "public_id" := JStr "a/b" ]>
      (<[ "cloud_name" := JStr "demo" ]> {[ "secure_url" := JNum "5" ]}) in
  parseFromUrl (JNum "5") = mkParsed JUndefined JUndefined JUndefined
  /\ calls (IndexJs.deleteMedia demo_accounts no_default upstream_ok body)
     = [mkCall "https://api.cloudinary.com/v1_1/demo/resources/image/upload"
               (JStr "K") (JStr "S") ["a/b"] true].
Proof.
  intros body.
  destruct C7_parse_failure_is_empty_result as (Hparse & Hother & Hcaller & _).
  assert (Hno : no_locator (JNum "5")) by (apply Hother; discriminate).
  split; [by apply Hparse |].
  exact (proj1 (proj1 (Hcaller demo_accounts no_default upstream_ok body "a/b"
                         Hno eq_refl eq_refl)
                  (mkCreds (JStr "demo") (JStr "K") (JStr "S")) "demo"
                  eq_refl eq_refl eq_refl (conj eq_refl (conj eq_refl eq_refl))
                  eq_refl)).
Defined.

(** ** C8: upstream failures *)

(** C8: when a handler has issued its outbound request [call] and the remote
    call fails with [err] (a transport error, or an error response whose
    body is [err.response.data]), the handler answers 500 with exactly
    [{error: "Failed to delete media"}]; the detail
    [err.response.data || err.message] goes to the log and the response does
    not depend on it. *)
Theorem C8_upstream_failure_is_500
    (ACCOUNTS : JsVal) (D : Creds) (axios_delete : OutboundCall -> M JsVal)
    (body : gmap string JsVal) (call : OutboundCall) (err : JsError) :
  axios_delete call = throw err ->
  (In call (calls (IndexJs.deleteMedia ACCOUNTS D axios_delete body)) ->
     IndexJs.deleteMedia ACCOUNTS D axios_delete body
       = mkOutcome 500 (error_body "Failed to delete media") [call]
           [mkLog "Error deleting media:"
                  (js_or (err_response_data err) (err_message err))])
  /\ (In call (calls (Part000.deleteMedia ACCOUNTS D axios_delete body)) ->
     Part000.deleteMedia ACCOUNTS D axios_delete body
       = mkOutcome 500 (error_body "Failed to delete media") [call]
           [mkLog "Error deleting media:"
                  (js_or (err_response_data err) (err_message err))]).
Proof.
  intros Hfail. split; intros Hin.
  - eapply run_cases_calls in Hin as (_ & text & c & _ & _ & _ & _ & Ho);
      [| apply IndexJs_run_cases].
    by rewrite Ho, Hfail.
  - eapply run_cases_calls in Hin as (_ & text & c & _ & _ & _ & _ & Ho);
      [| apply Part000_run_cases].
    by rewrite Ho, Hfail.
Qed.

(** C8 at a concrete input. *)
Lemma C8_upstream_failure_is_500_witness :
  let body : gmap string JsVal :=
    <[ "public_id" := JStr "a/b" ]> {[ "cloud_name" := JStr "demo" ]} in
  let call :=
    mkCall "https://api.cloudinary.com/v1_1/demo/resources/image/upload"
           (JStr "K") (JStr "S") ["a/b"] true in
  Part000.deleteMedia demo_accounts no_default upstream_denies body
  = mkOutcome 500 (error_body "Failed to delete media") [call]
      [mkLog "Error deleting media:"
         (JObj {[ "error" := JObj {[ "message" := JStr "Invalid credentials" ]} ]})].
Proof.
  intros body call.
  refine (proj2 (C8_upstream_failure_is_500 demo_accounts no_default upstream_denies
                   body call _ eq_refl) _).
  left. reflexivity.
Defined.

(** ** C9: an unparsable account table *)






(** ** C10: a name that matches nothing is served by the default account *)

(** C10, as stated, fails, in both revisions.  The name "constructor" is
    not a key of the table [demo_accounts] and is not the name of the
    complete default account [main_default], yet the request is not served
    by the default account: the lookup finds the member every object
    inherits, and the answer is the credentials error.  And a request for
    the unknown cloud "other" whose [public_id] is the object
    [{"toString": 1}] is answered 500 without an outbound request. *)
Lemma C10_unmatched_name_not_served :
  let by_inherited_name : gmap string JsVal :=
    <[ "public_id" := JStr "a/b" ]> {[ "cloud_name" := JStr "constructor" ]} in
  let by_public_id : gmap string JsVal :=
    <[ "public_id" := JObj {[ "toString" := JNum "1" ]} ]>
      {[ "cloud_name" := JStr "other" ]} in
  let failure :=
    mkOutcome 500 (error_body "Failed to delete media") []
      [mkLog "Error deleting media:"
             (JStr "Cannot convert object to primitive value")] in
  (own_prop demo_accounts "constructor" = None
   /\ strict_equals (creds_cloud_name main_default) (JStr "constructor") = false
   /\ IndexJs.deleteMedia demo_accounts main_default upstream_ok by_inherited_name
      = mkOutcome 400 (error_body IndexJs.credentials_error) [] []
   /\ Part000.deleteMedia demo_accounts main_default upstream_ok by_inherited_name
      = mkOutcome 400 (error_body Part000.credentials_error) [] [])
  /\ (own_prop demo_accounts "other" = None
      /\ IndexJs.deleteMedia demo_accounts main_default upstream_ok by_public_id
         = failure
      /\ Part000.deleteMedia demo_accounts main_default upstream_ok by_public_id
         = failure).
Proof. vm_compute. repeat split; reflexivity. Qed.

(** C10, amended: a request that passes validation, whose [public_id] converts to a
    string, and that supplies the name [c], where the table lookup finds
    nothing under [c] (neither an entry of its own nor, as under
    "constructor", a member every object inherits) and [c] is not the name
    [d] of the default account, is served with the default account: the
    lookup returns [null], the default account is the account selected, and
    when it has a key and a secret the one outbound request is authenticated
    with them and addressed to [d], not to [c]. *)
Theorem C10_unmatched_name_served_by_default
    (table : gmap string JsVal) (D : Creds)
    (axios_delete : OutboundCall -> M JsVal) (body : gmap string JsVal)
    (c d text : string) :
  truthy (field body "public_id") = true ->
  ToString (field body "public_id") = ret text ->
  field body "cloud_name" = JStr c -> c <> "" ->
  truthy (member (JObj table) c) = false ->
  creds_cloud_name D = JStr d -> d <> "" -> c <> d ->
  (IndexJs.getCredsForCloud (JObj table) D (JStr c) = ret None
   /\ Part000.getCredsForCloud (JObj table) D (JStr c) = ret None)
  /\ (IndexJs.select_creds (JObj table) D (derived_cloud_name body) = ret (Some D)
      /\ Part000.select_creds (JObj table) D (derived_cloud_name body) = ret (Some D))
  /\ (truthy (creds_api_key D) = true -> truthy (creds_api_secret D) = true ->
      forall resource_type type,
        ToString (final_resource_type body) = ret resource_type ->
        ToString (final_type body) = ret type ->
        let call :=
          mkCall ("https://api.cloudinary.com/v1_1/" +:+ d +:+ "/resources/"
                  +:+ resource_type +:+ "/" +:+ type)
                 (creds_api_key D) (creds_api_secret D)
                 [trim text]
                 (shouldInvalidate (field body "invalidate")) in
        calls (IndexJs.deleteMedia (JObj table) D axios_delete body) = [call]
        /\ calls (Part000.deleteMedia (JObj table) D axios_delete body) = [call]).
Proof.
  intros Hpid Htext Hname Hc Habs HD Hd Hcd.
  assert (Htc : truthy (JStr c) = true) by by apply truthy_JStr.
  assert (Htd : truthy (creds_cloud_name D) = true)
    by (rewrite HD; by apply truthy_JStr).
  assert (Hderived : derived_cloud_name body = JStr c).
  { unfold derived_cloud_name, derive. rewrite Hname.
    destruct (_ && _); [| done]. by rewrite js_or_truthy. }
  assert (Hnone : IndexJs.getCredsForCloud (JObj table) D (JStr c) = ret None
                  /\ Part000.getCredsForCloud (JObj table) D (JStr c) = ret None).
  { destruct (getCredsForCloud_no_entry table D (JStr c) c Htc) as [-> ->];
      [done | done |].
    by rewrite strict_equals_JStr_r_false by (rewrite HD; congruence). }
  assert (Hsel : IndexJs.select_creds (JObj table) D (JStr c) = ret (Some D)).
  { rewrite (select_creds_found _ _ _ None), Htd; [done | apply Hnone]. }
  rewrite select_creds_revisions_agree, Hderived.
  split; [exact Hnone |]. split; [by split |].
  intros Hkey Hsecret rt ty Hrt Hty call. subst call.
  apply (deleteMedia_served (JObj table) D axios_delete body text D d rt ty);
    try done.
  - by rewrite Hderived.
  - by rewrite HD.
Qed.

(** C10 at a concrete input. *)
Lemma C10_unmatched_name_served_by_default_witness :
  let body : gmap string JsVal :=
    <[ "public_id" := JStr "a/b" ]> {[ "cloud_name" := JStr "other" ]} in
  calls (IndexJs.deleteMedia demo_accounts main_default upstream_ok body)
  = [mkCall "https://api.cloudinary.com/v1_1/main/resources/image/upload"
            (JStr "DK") (JStr "DS") ["a/b"] true].
Proof.
  intros body.
  exact (proj1 (proj2 (proj2 (C10_unmatched_name_served_by_default
                  {[ "demo" := JObj (<[ "api_key" := JStr "K" ]>
                                       {[ "api_secret" := JStr "S" ]}) ]}
                  main_default upstream_ok body "other" "main" "a/b"
                  eq_refl eq_refl eq_refl ltac:(discriminate) eq_refl eq_refl
                  ltac:(discriminate) ltac:(discriminate)))
                  eq_refl eq_refl "image" "upload" eq_refl eq_refl)).
Defined.

(** * Further properties of the code *)

(** ** The shape of a run *)

Lemma error_body_inj a b : error_body a = error_body b -> a = b.
Proof.
  intros H. apply (f_equal (fun v => member v "error")) in H.
  unfold error_body in H. rewrite !member_JObj, !lookup_singleton_eq in H.
  by injection H.
Qed.

(** What the endings have in common. *)
Lemma run_cases_shape select unusable msg axios_delete body o :
  run_cases select unusable msg axios_delete body o ->
  (status o = 200 \/ status o = 400 \/ status o = 500)
  /\ length (calls o) <= 1
  /\ (status o = 400 -> calls o = [] /\ logged o = [])
  /\ (status o = 200 ->
      logged o = []
      /\ exists call, calls o = [call] /\ axios_delete call = ret (payload o))
  /\ (status o = 500 ->
      payload o = error_body "Failed to delete media"
      /\ length (logged o) = 1
      /\ forall call, In call (calls o) -> exists err, axios_delete call = throw err).
Proof.
  assert (Hcaught : forall err,
            let o := caught err [] in
            (status o = 200 \/ status o = 400 \/ status o = 500)
            /\ length (calls o) <= 1
            /\ (status o = 400 -> calls o = [] /\ logged o = [])
            /\ (status o = 200 ->
                logged o = []
                /\ exists call, calls o = [call] /\ axios_delete call = ret (payload o))
            /\ (status o = 500 ->
                payload o = error_body "Failed to delete media"
                /\ length (logged o) = 1
                /\ forall call, In call (calls o) ->
                                exists err, axios_delete call = throw err)).
  { intros err. cbn. split_and!; try (by auto); try lia; try discriminate;
      try (intros _; split_and!; try done; by intros call []). }
  assert (Hrefused : forall text,
            let o := mkOutcome 400 (error_body text) [] [] in
            (status o = 200 \/ status o = 400 \/ status o = 500)
            /\ length (calls o) <= 1
            /\ (status o = 400 -> calls o = [] /\ logged o = [])
            /\ (status o = 200 ->
                logged o = []
                /\ exists call, calls o = [call] /\ axios_delete call = ret (payload o))
            /\ (status o = 500 ->
                payload o = error_body "Failed to delete media"
                /\ length (logged o) = 1
                /\ forall call, In call (calls o) ->
                                exists err, axios_delete call = throw err)).
  { intros text. cbn. split_and!; try (by auto); try lia; discriminate. }
  intros [[_ ->] | [_ [(err & _ & ->) | (text & _ & H)]]];
    [apply Hrefused | apply Hcaught |].
  destruct H as [(err & _ & ->) | [(sel & _ & _ & ->) | (c & _ & _ & ->)]];
    [apply Hcaught | apply Hrefused |].
  unfold dispatch.
  destruct (call_for body (trim text) c) as [err | call]; [apply Hcaught |].
  destruct (axios_delete call) as [err | data] eqn:Hup;
    cbn; split_and!; try (by auto); try lia; try discriminate.
  all: intros _; split_and!; try done.
  - intros call' [<- | []]. by exists err.
  - by exists call.
Qed.

(** X1: every run of either revision ends with status 200, 400 or 500 and
    issues at most one outbound request.  A 400 comes with no outbound
    request and no log line; a 200 comes with exactly one request, answered
    by the remote with the very payload that is relayed, and no log line; a
    500 carries the fixed body, writes exactly one log line, and any request
    that was issued is one the remote failed. *)
Theorem X1_run_shape
    (ACCOUNTS : JsVal) (D : Creds) (axios_delete : OutboundCall -> M JsVal)
    (body : gmap string JsVal) (o : Outcome) :
  o = IndexJs.deleteMedia ACCOUNTS D axios_delete body
  \/ o = Part000.deleteMedia ACCOUNTS D axios_delete body ->
  (status o = 200 \/ status o = 400 \/ status o = 500)
  /\ length (calls o) <= 1
  /\ (status o = 400 -> calls o = [] /\ logged o = [])
  /\ (status o = 200 ->
      logged o = []
      /\ exists call, calls o = [call] /\ axios_delete call = ret (payload o))
  /\ (status o = 500 ->
      payload o = error_body "Failed to delete media"
      /\ length (logged o) = 1
      /\ forall call, In call (calls o) -> exists err, axios_delete call = throw err).
Proof.
  intros [-> | ->].
  - eapply run_cases_shape, IndexJs_run_cases.
  - eapply run_cases_shape, Part000_run_cases.
Qed.

(** X1 at a concrete input. *)
Lemma X1_run_shape_witness :
  let body : gmap string JsVal :=
    <[ "public_id" := JStr "a/b" ]> {[ "cloud_name" := JStr "demo" ]} in
  length (calls (Part000.deleteMedia demo_accounts no_default upstream_denies body)) <= 1.
Proof.
  intros body.
  exact (proj1 (proj2 (X1_run_shape demo_accounts no_default upstream_denies body
                         _ (or_intror eq_refl)))).
Defined.

(** X2: when the remote accepts the request a handler issued and answers
    [data], the handler answers 200 with [data] itself as the payload and
    logs nothing. *)
Theorem X2_success_relays_remote_body
    (ACCOUNTS : JsVal) (D : Creds) (axios_delete : OutboundCall -> M JsVal)
    (body : gmap string JsVal) (call : OutboundCall) (data : JsVal) :
  axios_delete call = ret data ->
  (In call (calls (IndexJs.deleteMedia ACCOUNTS D axios_delete body)) ->
     IndexJs.deleteMedia ACCOUNTS D axios_delete body = mkOutcome 200 data [call] [])
  /\ (In call (calls (Part000.deleteMedia ACCOUNTS D axios_delete body)) ->
     Part000.deleteMedia ACCOUNTS D axios_delete body = mkOutcome 200 data [call] []).
Proof.
  intros Hok. split; intros Hin.
  - eapply run_cases_calls in Hin as (_ & text & c & _ & _ & _ & _ & Ho);
      [| apply IndexJs_run_cases].
    by rewrite Ho, Hok.
  - eapply run_cases_calls in Hin as (_ & text & c & _ & _ & _ & _ & Ho);
      [| apply Part000_run_cases].
    by rewrite Ho, Hok.
Qed.

(** X2 at a concrete input. *)
Lemma X2_success_relays_remote_body_witness :
  let body : gmap string JsVal :=
    <[ "public_id" := JStr "a/b" ]> {[ "cloud_name" := JStr "demo" ]} in
  let call :=
    mkCall "https://api.cloudinary.com/v1_1/demo/resources/image/upload"
           (JStr "K") (JStr "S") ["a/b"] true in
  IndexJs.deleteMedia demo_accounts no_default upstream_ok body
  = mkOutcome 200 (JObj ∅) [call] [].
Proof.
  intros body call.
  refine (proj1 (X2_success_relays_remote_body demo_accounts no_default upstream_ok
                   body call (JObj ∅) eq_refl) _).
  left. reflexivity.
Defined.

(** Only a falsy [public_id] is answered with the refusal for a missing
    one. *)
Lemma run_cases_required select unusable msg axios_delete body o :
  msg <> "public_id is required" ->
  run_cases select unusable msg axios_delete body o ->
  o = mkOutcome 400 (error_body "public_id is required") [] [] ->
  truthy (field body "public_id") = false.
Proof.
  intros Hmsg [[H _] | [_ [(err & _ & ->) | (text & _ & H)]]] Ho;
    [done | discriminate |].
  destruct H as [(err & _ & ->) | [(sel & _ & _ & ->) | (c & _ & _ & ->)]].
  - discriminate.
  - apply (f_equal payload) in Ho. cbn [payload] in Ho.
    by apply error_body_inj in Ho.
  - unfold dispatch in Ho.
    destruct (call_for _ _ _) as [err | call]; [discriminate |].
    destruct (axios_delete call); discriminate.
Qed.

(** X3: the answer 400 [{error: "public_id is required"}] is given exactly
    to the requests whose [public_id] is falsy: no request with a truthy
    [public_id] receives it, whatever the configuration and the remote do. *)
Theorem X3_required_answer_iff_falsy
    (ACCOUNTS : JsVal) (D : Creds) (axios_delete : OutboundCall -> M JsVal)
    (body : gmap string JsVal) :
  (IndexJs.deleteMedia ACCOUNTS D axios_delete body
     = mkOutcome 400 (error_body "public_id is required") [] []
   <-> truthy (field body "public_id") = false)
  /\ (Part000.deleteMedia ACCOUNTS D axios_delete body
     = mkOutcome 400 (error_body "public_id is required") [] []
   <-> truthy (field body "public_id") = false).
Proof.
  split; split.
  - eapply run_cases_required; [| apply IndexJs_run_cases].
    unfold IndexJs.credentials_error. discriminate.
  - intros H. unfold IndexJs.deleteMedia. by rewrite H.
  - eapply run_cases_required; [| apply Part000_run_cases].
    unfold Part000.credentials_error. discriminate.
  - intros H. unfold Part000.deleteMedia. by rewrite H.
Qed.

(** ** Which account serves a request *)

Lemma derived_cloud_name_explicit body :
  truthy (field body "cloud_name") = true ->
  derived_cloud_name body = field body "cloud_name".
Proof.
  intros Hcn. unfold derived_cloud_name, derive.
  destruct (_ && _); [| done]. by rewrite js_or_truthy.
Qed.

Lemma select_creds_entry table D v key e :
  truthy v = true -> ToString v = ret key ->
  table !! key = Some e -> truthy e = true ->
  IndexJs.select_creds (JObj table) D v = ret (Some (entry_account v e)).
Proof.
  intros Hv Hk He Ht.
  destruct (getCredsForCloud_entry table D v key e Hv Hk He Ht) as [Hi _].
  by rewrite (select_creds_found _ _ _ _ Hi).
Qed.

(** X4: a request that passes validation and names a cloud [c] for which the
    table has an entry of its own with a truthy [api_key] and [api_secret]
    is served with that entry, whatever the default account is: when the
    identifier, the resource type and the type convert to strings, exactly
    one outbound request is issued, addressed to [c] and authenticated with
    the entry's key and secret. *)
Theorem X4_table_entry_serves_request
    (table : gmap string JsVal) (D : Creds)
    (axios_delete : OutboundCall -> M JsVal) (body : gmap string JsVal)
    (c text : string) (e : JsVal) :
  truthy (field body "public_id") = true ->
  ToString (field body "public_id") = ret text ->
  field body "cloud_name" = JStr c -> c <> "" ->
  table !! c = Some e ->
  truthy (member e "api_key") = true ->
  truthy (member e "api_secret") = true ->
  forall resource_type type,
    ToString (final_resource_type body) = ret resource_type ->
    ToString (final_type body) = ret type ->
    let call :=
      mkCall ("https://api.cloudinary.com/v1_1/" +:+ c +:+ "/resources/"
              +:+ resource_type +:+ "/" +:+ type)
             (member e "api_key") (member e "api_secret")
             [trim text]
             (shouldInvalidate (field body "invalidate")) in
    calls (IndexJs.deleteMedia (JObj table) D axios_delete body) = [call]
    /\ calls (Part000.deleteMedia (JObj table) D axios_delete body) = [call].
Proof.
  intros Hpid Htext Hname Hc He Hk Hs rt ty Hrt Hty call. subst call.
  assert (Htc : truthy (JStr c) = true) by by apply truthy_JStr.
  assert (Hte : truthy e = true) by (apply credential_truthy; by left).
  apply (deleteMedia_served (JObj table) D axios_delete body text
           (entry_account (JStr c) e) c rt ty); try done.
  rewrite derived_cloud_name_explicit, Hname by (by rewrite Hname).
  by apply (select_creds_entry table D (JStr c) c).
Qed.

(** X4 at a concrete input. *)
Lemma X4_table_entry_serves_request_witness :
  let body : gmap string JsVal :=
    <[ "public_id" := JStr "a/b" ]> {[ "cloud_name" := JStr "demo" ]} in
  calls (IndexJs.deleteMedia demo_accounts main_default upstream_ok body)
  = [mkCall "https://api.cloudinary.com/v1_1/demo/resources/image/upload"
            (JStr "K") (JStr "S") ["a/b"] true].
Proof.
  intros body.
  exact (proj1 (X4_table_entry_serves_request
              {[ "demo" := JObj (<[ "api_key" := JStr "K" ]>
                                   {[ "api_secret" := JStr "S" ]}) ]}
              main_default upstream_ok body "demo" "a/b"
              (JObj (<[ "api_key" := JStr "K" ]> {[ "api_secret" := JStr "S" ]}))
              eq_refl eq_refl eq_refl ltac:(discriminate) eq_refl eq_refl eq_refl
              "image" "upload" eq_refl eq_refl)).
Defined.

(** X5: a truthy table entry that lacks a truthy [api_key] or [api_secret]
    is still the account selected for its name, so the request is answered
    with the credentials error and no outbound request is made, even when a
    complete default account is configured: the fallback is not tried. *)
Theorem X5_incomplete_entry_blocks_fallback
    (table : gmap string JsVal) (D : Creds)
    (axios_delete : OutboundCall -> M JsVal) (body : gmap string JsVal)
    (c text : string) (e : JsVal) :
  truthy (field body "public_id") = true ->
  ToString (field body "public_id") = ret text ->
  field body "cloud_name" = JStr c -> c <> "" ->
  table !! c = Some e -> truthy e = true ->
  truthy (member e "api_key") = false \/ truthy (member e "api_secret") = false ->
  IndexJs.deleteMedia (JObj table) D axios_delete body
    = mkOutcome 400 (error_body IndexJs.credentials_error) [] []
  /\ Part000.deleteMedia (JObj table) D axios_delete body
    = mkOutcome 400 (error_body Part000.credentials_error) [] [].
Proof.
  intros Hpid Htext Hname Hc He Hte Hmissing.
  assert (Htc : truthy (JStr c) = true) by by apply truthy_JStr.
  eapply deleteMedia_incomplete; [done | done | |].
  - rewrite derived_cloud_name_explicit, Hname by (by rewrite Hname).
    by apply (select_creds_entry table D (JStr c) c).
  - simpl. by right.
Qed.

(** X5 at a concrete input. *)
Lemma X5_incomplete_entry_blocks_fallback_witness :
  let table : gmap string JsVal := {[ "demo" := JObj {[ "api_key" := JStr "K" ]} ]} in
  let body : gmap string JsVal :=
    <[ "public_id" := JStr "a/b" ]> {[ "cloud_name" := JStr "demo" ]} in
  IndexJs.deleteMedia (JObj table) main_default upstream_ok body
    = mkOutcome 400 (error_body IndexJs.credentials_error) [] []
  /\ Part000.deleteMedia (JObj table) main_default upstream_ok body
    = mkOutcome 400 (error_body Part000.credentials_error) [] [].
Proof.
  intros table body.
  apply (X5_incomplete_entry_blocks_fallback table main_default upstream_ok body
           "demo" "a/b" (JObj {[ "api_key" := JStr "K" ]}));
    [reflexivity | reflexivity | reflexivity | discriminate | reflexivity
    | reflexivity |].
  right. reflexivity.
Defined.

(** ** A table that is not an object *)

(** X6: when [ACCOUNTS] is [null] (the text [null] is valid JSON), a request
    that passes validation and carries a truthy cloud name after derivation
    makes the lookup throw: both revisions answer 500 with the fixed body
    and issue no outbound request, and for a name that is a string [c] the
    line logged is the message of the [TypeError] for reading [c] from
    [null].  A request without a name never reads the table and is served by
    a complete default account. *)
Theorem X6_null_table_fails_named_requests
    (D : Creds) (axios_delete : OutboundCall -> M JsVal)
    (body : gmap string JsVal) (text : string) :
  truthy (field body "public_id") = true ->
  ToString (field body "public_id") = ret text ->
  (truthy (derived_cloud_name body) = true ->
     exists message,
       IndexJs.deleteMedia JNull D axios_delete body
         = mkOutcome 500 (error_body "Failed to delete media") []
                     [mkLog "Error deleting media:" (JStr message)]
       /\ Part000.deleteMedia JNull D axios_delete body
         = mkOutcome 500 (error_body "Failed to delete media") []
                     [mkLog "Error deleting media:" (JStr message)]
       /\ forall c, derived_cloud_name body = JStr c ->
            message = "Cannot read properties of null (reading '" +:+ c +:+ "')")
  /\ (truthy (derived_cloud_name body) = false ->
      complete D ->
      forall name resource_type type,
        ToString (creds_cloud_name D) = ret name ->
        ToString (final_resource_type body) = ret resource_type ->
        ToString (final_type body) = ret type ->
        let call :=
          mkCall ("https://api.cloudinary.com/v1_1/" +:+ name +:+ "/resources/"
                  +:+ resource_type +:+ "/" +:+ type)
                 (creds_api_key D) (creds_api_secret D) [trim text]
                 (shouldInvalidate (field body "invalidate")) in
        calls (IndexJs.deleteMedia JNull D axios_delete body) = [call]
        /\ calls (Part000.deleteMedia JNull D axios_delete body) = [call]).
Proof.
  intros Hpid Htext. split.
  - intros Hname.
    exists ("Cannot read properties of null"
            +:+ match key_text (derived_cloud_name body) with
                | Some name => " (reading '" +:+ name +:+ "')"
                | None => ""
                end).
    unfold IndexJs.deleteMedia, Part000.deleteMedia, derived_cloud_name in *.
    rewrite Hpid, Htext. cbn [negb]. unfold ret.
    destruct (derive _ _ _ _) as [[cn rt] ty].
    unfold IndexJs.select_creds, Part000.select_creds,
      IndexJs.getCredsForCloud, Part000.getCredsForCloud.
    rewrite Hname. split; [done |]. split; [done |]. by intros c ->.
  - intros Hname Hc name rt ty Hn Hrt Hty call. subst call.
    apply (deleteMedia_served JNull D axios_delete body text D name rt ty);
      try done.
    rewrite (select_creds_found _ _ _ None);
      [by destruct Hc as [-> _] | by apply getCredsForCloud_falsy].
Qed.

(** X6 at a concrete input. *)
Lemma X6_null_table_fails_named_requests_witness :
  let body : gmap string JsVal := {[ "public_id" := JStr "a/b" ]} in
  calls (IndexJs.deleteMedia JNull main_default upstream_ok body)
  = [mkCall "https://api.cloudinary.com/v1_1/main/resources/image/upload"
            (JStr "DK") (JStr "DS") ["a/b"] true].
Proof.
  intros body.
  exact (proj1 (proj2 (X6_null_table_fails_named_requests main_default upstream_ok
                         body "a/b" eq_refl eq_refl)
                  eq_refl (conj eq_refl (conj eq_refl eq_refl))
                  "main" "image" "upload" eq_refl eq_refl eq_refl)).
Defined.

(** ** What the handler reads *)

(** X7: when the request supplies truthy values for [cloud_name],
    [resource_type] and [type], the URL is not consulted: the handlers answer
    the same whatever [secure_url] carries, be it a URL of another cloud or
    no string at all. *)
Theorem X7_complete_request_ignores_url
    (ACCOUNTS : JsVal) (D : Creds) (axios_delete : OutboundCall -> M JsVal)
    (body : gmap string JsVal) (url : JsVal) :
  truthy (field body "cloud_name") = true ->
  truthy (field body "resource_type") = true ->
  truthy (field body "type") = true ->
  IndexJs.deleteMedia ACCOUNTS D axios_delete (<[ "secure_url" := url ]> body)
    = IndexJs.deleteMedia ACCOUNTS D axios_delete (delete "secure_url" body)
  /\ Part000.deleteMedia ACCOUNTS D axios_delete (<[ "secure_url" := url ]> body)
    = Part000.deleteMedia ACCOUNTS D axios_delete (delete "secure_url" body).
Proof.
  intros Hcn Hrt Hty.
  assert (Hf : forall key (b : gmap string JsVal) v, key <> "secure_url" ->
            field (<[ "secure_url" := v ]> b) key = field b key)
    by (intros key b v Hkey; unfold field; by rewrite lookup_insert_ne).
  assert (Hg : forall key, key <> "secure_url" ->
            field (delete "secure_url" body) key = field body key)
    by (intros key Hkey; unfold field; by rewrite lookup_delete_ne).
  unfold IndexJs.deleteMedia, Part000.deleteMedia.
  rewrite !(Hf "public_id"), !(Hf "cloud_name"), !(Hf "resource_type"),
    !(Hf "type"), !(Hf "invalidate") by done.
  rewrite !(Hg "public_id"), !(Hg "cloud_name"), !(Hg "resource_type"),
    !(Hg "type"), !(Hg "invalidate") by done.
  unfold derive. by rewrite Hcn, Hrt, Hty.
Qed.

(** X7 at a concrete input. *)
Lemma X7_complete_request_ignores_url_witness :
  let body : gmap string JsVal :=
    <[ "public_id" := JStr "a/b" ]>
      (<[ "cloud_name" := JStr "demo" ]>
         (<[ "resource_type" := JStr "video" ]> {[ "type" := JStr "private" ]})) in
  let url := JStr "https://res.cloudinary.com/other/image/upload/v1/a/b.jpg" in
  IndexJs.deleteMedia demo_accounts no_default upstream_ok (<[ "secure_url" := url ]> body)
  = IndexJs.deleteMedia demo_accounts no_default upstream_ok (delete "secure_url" body).
Proof.
  intros body url.
  exact (proj1 (X7_complete_request_ignores_url demo_accounts no_default upstream_ok
                  body url eq_refl eq_refl eq_refl)).
Defined.

(** X8: the handlers read six fields of the body and nothing else: two
    requests that agree on [public_id], [cloud_name], [secure_url],
    [resource_type], [type] and [invalidate] get the same answer, issue the
    same outbound request and log the same lines. *)
Theorem X8_only_six_fields_matter
    (ACCOUNTS : JsVal) (D : Creds) (axios_delete : OutboundCall -> M JsVal)
    (body body' : gmap string JsVal) :
  (forall key, In key request_fields -> body !! key = body' !! key) ->
  IndexJs.deleteMedia ACCOUNTS D axios_delete body
    = IndexJs.deleteMedia ACCOUNTS D axios_delete body'
  /\ Part000.deleteMedia ACCOUNTS D axios_delete body
    = Part000.deleteMedia ACCOUNTS D axios_delete body'.
Proof.
  intros Hagree.
  assert (Hf : forall key, In key request_fields -> field body key = field body' key)
    by (intros key Hkey; unfold field; by rewrite (Hagree key Hkey)).
  unfold IndexJs.deleteMedia, Part000.deleteMedia.
  rewrite (Hf "public_id"), (Hf "cloud_name"), (Hf "secure_url"),
    (Hf "resource_type"), (Hf "type"), (Hf "invalidate")
    by (unfold request_fields; simpl; tauto).
  done.
Qed.

(** X8 at a concrete input. *)
Lemma X8_only_six_fields_matter_witness :
  let body : gmap string JsVal :=
    <[ "public_id" := JStr "a/b" ]> {[ "cloud_name" := JStr "demo" ]} in
  IndexJs.deleteMedia demo_accounts no_default upstream_ok body
  = IndexJs.deleteMedia demo_accounts no_default upstream_ok
      (<[ "folder" := JStr "x" ]> body).
Proof.
  intros body.
  refine (proj1 (X8_only_six_fields_matter demo_accounts no_default upstream_ok
                   body (<[ "folder" := JStr "x" ]> body) _)).
  intros key Hkey. rewrite lookup_insert_ne; [reflexivity |].
  intros <-. unfold request_fields in Hkey. simpl in Hkey.
  repeat (destruct Hkey as [Hkey | Hkey]; [discriminate Hkey |]). exact Hkey.
Defined.

(** ** The two revisions *)

(** X9: the revision in [src/unnamed/part_000] and the one in [src/index.js]
    resolve every name to the same account and answer every request alike:
    the two outcomes are equal, except that where one answers with its
    credentials error the other answers with its own wording of it. *)
Theorem X9_revisions_equivalent
    (ACCOUNTS : JsVal) (D : Creds) (axios_delete : OutboundCall -> M JsVal)
    (body : gmap string JsVal) :
  (forall cloud_name,
     Part000.getCredsForCloud ACCOUNTS D cloud_name
     = IndexJs.getCredsForCloud ACCOUNTS D cloud_name)
  /\ (Part000.deleteMedia ACCOUNTS D axios_delete body
      = IndexJs.deleteMedia ACCOUNTS D axios_delete body
      \/ (IndexJs.deleteMedia ACCOUNTS D axios_delete body
          = mkOutcome 400 (error_body IndexJs.credentials_error) [] []
          /\ Part000.deleteMedia ACCOUNTS D axios_delete body
             = mkOutcome 400 (error_body Part000.credentials_error) [] [])).
Proof.
  split; [intros v; apply getCredsForCloud_revisions_agree |].
  unfold IndexJs.deleteMedia, Part000.deleteMedia.
  handler_cases; [by left | | by left].
  rewrite select_creds_revisions_agree.
  destruct (IndexJs.select_creds _ _ _) as [err | selected]; [by left |].
  rewrite unusable_revisions_agree.
  destruct (IndexJs.unusable selected); [by right | by left].
Qed.

(** ** More on [getCredsForCloud] *)

(** X10: whatever [ACCOUNTS] and the default account are, an account
    returned by [getCredsForCloud] carries exactly the name that was asked
    for, and a falsy name never gets one: resolution by itself never hands
    out the credentials of another cloud. *)
Theorem X10_resolved_account_has_requested_name
    (ACCOUNTS : JsVal) (D : Creds) (cloud_name : JsVal) (c : Creds) :
  IndexJs.getCredsForCloud ACCOUNTS D cloud_name = ret (Some c)
  \/ Part000.getCredsForCloud ACCOUNTS D cloud_name = ret (Some c) ->
  truthy cloud_name = true /\ creds_cloud_name c = cloud_name.
Proof.
  rewrite getCredsForCloud_revisions_agree. intros [H | H]; revert H.
  all: unfold IndexJs.getCredsForCloud.
  all: destruct (truthy cloud_name) eqn:Hv; cbn [negb]; [| discriminate].
  all: destruct (js_index ACCOUNTS cloud_name) as [e | entry];
    cbn [bind]; [discriminate |].
  all: destruct (truthy entry) eqn:He.
  1,3: rewrite !(js_get_truthy entry) by done; cbn [bind ret];
       intros [= <-]; done.
  all: destruct (_ && _); intros [= <-]; done.
Qed.

(** X10 at a concrete input. *)
Lemma X10_resolved_account_has_requested_name_witness :
  truthy (JStr "main") = true /\ creds_cloud_name main_default = JStr "main".
Proof.
  apply (X10_resolved_account_has_requested_name demo_accounts main_default
           (JStr "main") main_default).
  right. reflexivity.
Defined.

(** Induction on values whose arrays are taken element by element. *)
Lemma JsVal_elements_ind (P : JsVal -> Prop) :
  P JUndefined -> P JNull -> (forall b, P (JBool b)) -> (forall r, P (JNum r)) ->
  (forall s, P (JStr s)) ->
  (forall elems, Forall P elems -> P (JArr elems)) ->
  (forall props, P (JObj props)) ->
  (forall p k, P (JBuiltin p k)) ->
  forall v, P v.
Proof.
  intros Hu Hn Hb Hr Hs Ha Ho Hf. fix IH 1.
  intros [| | b | r | s | elems | props | p k];
    [exact Hu | exact Hn | apply Hb | apply Hr | apply Hs | | apply Ho | apply Hf].
  apply Ha. induction elems as [| e elems IHl]; constructor; [apply IH | apply IHl].
Qed.

(** The one error a conversion to string throws. *)
Lemma ToString_throw v err :
  ToString v = throw err ->
  err = TypeError "Cannot convert object to primitive value".
Proof.
  revert err. induction v as [| | [|] | r | s | elems IH | props | p k]
    using JsVal_elements_ind; intros err; cbn; try discriminate.
  - match goal with
    | |- context [bind ?m _] => destruct m as [e0 | parts] eqn:Heach
    end; cbn; [| discriminate].
    intros [= <-]. revert e0 Heach.
    induction IH as [| e elems He _ IHl]; intros e0; cbn; [discriminate |].
    destruct (match e with
              | JUndefined | JNull => ret ""
              | _ => ToString e
              end) as [e1 | p1] eqn:Hconv; cbn.
    + intros [= <-]. destruct e; try discriminate; by apply He.
    + match goal with
      | |- context [bind ?m _] => destruct m as [e2 | ps] eqn:Hrest
      end; cbn; [| discriminate].
      intros [= <-]. by apply IHl.
  - destruct (props !! "toString"); [| discriminate]. by intros [= <-].
Qed.

(** What [getCredsForCloud] does on a table that is [null] or [undefined]
    and on one that is not. *)
Lemma getCredsForCloud_outcomes ACCOUNTS D v :
  truthy v = true ->
  ((ACCOUNTS = JNull \/ ACCOUNTS = JUndefined)
   /\ IndexJs.getCredsForCloud ACCOUNTS D v
      = throw (TypeError_read ACCOUNTS (key_text v)))
  \/ (ACCOUNTS <> JNull /\ ACCOUNTS <> JUndefined
      /\ ((exists err, ToString v = throw err
                       /\ IndexJs.getCredsForCloud ACCOUNTS D v = throw err)
          \/ (exists key found, ToString v = ret key
                                /\ IndexJs.getCredsForCloud ACCOUNTS D v = ret found))).
Proof.
  intros Hv.
  assert (Hcases : ACCOUNTS = JNull \/ ACCOUNTS = JUndefined
                   \/ (ACCOUNTS <> JNull /\ ACCOUNTS <> JUndefined))
    by (destruct ACCOUNTS; auto).
  destruct Hcases as [-> | [-> | [Hn Hu]]].
  { left. split; [by left |]. unfold IndexJs.getCredsForCloud. by rewrite Hv. }
  { left. split; [by right |]. unfold IndexJs.getCredsForCloud. by rewrite Hv. }
  right. split; [done |]. split; [done |].
  destruct (ToString v) as [err | key] eqn:Hk.
  - left. exists err. split; [done |].
    unfold IndexJs.getCredsForCloud. rewrite Hv. cbn [negb].
    destruct ACCOUNTS; try done; cbn [js_index]; by rewrite Hk.
  - right. exists key.
    destruct (getCredsForCloud_lookup ACCOUNTS D v key Hv Hn Hu Hk) as [Hi _].
    by eauto.
Qed.

(** X11: [getCredsForCloud] throws exactly when the name is truthy and
    either [ACCOUNTS] is [null] (or [undefined]) or the name cannot be
    converted to a property key; on every other input it returns.  What it
    throws on a table that is not [null] is the [TypeError] of the
    conversion; on the table [null], for a name that is a string [c], it is
    the [TypeError] of reading [c] from [null]. *)
Theorem X11_when_the_lookup_throws
    (ACCOUNTS : JsVal) (D : Creds) (cloud_name : JsVal) :
  ((exists err, IndexJs.getCredsForCloud ACCOUNTS D cloud_name = throw err)
   <-> truthy cloud_name = true
       /\ (ACCOUNTS = JNull \/ ACCOUNTS = JUndefined
           \/ exists err, ToString cloud_name = throw err))
  /\ ((exists err, Part000.getCredsForCloud ACCOUNTS D cloud_name = throw err)
   <-> truthy cloud_name = true
       /\ (ACCOUNTS = JNull \/ ACCOUNTS = JUndefined
           \/ exists err, ToString cloud_name = throw err))
  /\ (forall err,
        IndexJs.getCredsForCloud ACCOUNTS D cloud_name = throw err
        \/ Part000.getCredsForCloud ACCOUNTS D cloud_name = throw err ->
        (ACCOUNTS <> JNull -> ACCOUNTS <> JUndefined ->
         err = TypeError "Cannot convert object to primitive value")
        /\ (forall c, ACCOUNTS = JNull -> cloud_name = JStr c ->
            err = TypeError ("Cannot read properties of null (reading '"
                             +:+ c +:+ "')"))).
Proof.
  rewrite getCredsForCloud_revisions_agree.
  assert (Hiff : (exists err, IndexJs.getCredsForCloud ACCOUNTS D cloud_name = throw err)
                 <-> truthy cloud_name = true
                     /\ (ACCOUNTS = JNull \/ ACCOUNTS = JUndefined
                         \/ exists err, ToString cloud_name = throw err)).
  { destruct (truthy cloud_name) eqn:Hv.
    - destruct (getCredsForCloud_outcomes ACCOUNTS D cloud_name Hv)
        as [[Hnull ->] | (Hn & Hu & [(err & Hk & ->) | (key & found & Hk & ->)])].
      + split; [intros _ | by eauto]. split; [done |]. tauto.
      + split; [intros _ | by eauto]. split; [done |]. by eauto.
      + split; [by intros [err [=]] |].
        intros [_ [-> | [-> | [err Herr]]]]; try done. by rewrite Hk in Herr.
    - destruct (getCredsForCloud_falsy ACCOUNTS D _ Hv) as [-> _].
      split; [by intros [err [=]] | by intros [[=] _]]. }
  split; [exact Hiff |]. split; [exact Hiff |].
  intros err Hthrow.
  assert (Hi : IndexJs.getCredsForCloud ACCOUNTS D cloud_name = throw err)
    by (by destruct Hthrow).
  destruct (truthy cloud_name) eqn:Hv;
    [| by destruct (getCredsForCloud_falsy ACCOUNTS D _ Hv) as [Hf _];
          rewrite Hf in Hi].
  destruct (getCredsForCloud_outcomes ACCOUNTS D cloud_name Hv)
    as [[Hnull Hr] | (Hn & Hu & [(e & Hk & Hr) | (key & found & Hk & Hr)])];
    rewrite Hr in Hi.
  - injection Hi as <-. split; [by destruct Hnull as [-> | ->] |].
    by intros c -> ->.
  - injection Hi as <-. split; [intros _ _; by eapply ToString_throw | done].
  - discriminate.
Qed.

(** X12: an entry of the table that is falsy ([null], [false], [0], the
    empty string), under a key that is not one of the names every object
    inherits, counts as no entry: resolving a name gives the same result as
    on the table without that key.  And a truthy name that is not a string
    is looked up under its string conversion but, finding nothing there,
    resolves to [null] against any default account read from the
    environment, whose name is a string. *)
Theorem X12_falsy_entries_and_coerced_names
    (table : gmap string JsVal) (D : Creds) (cloud_name : JsVal) (key : string) :
  ToString cloud_name = ret key ->
  named_in Object_prototype_names key = false ->
  truthy (default JUndefined (table !! key)) = false ->
  (IndexJs.getCredsForCloud (JObj table) D cloud_name
     = IndexJs.getCredsForCloud (JObj (delete key table)) D cloud_name
   /\ Part000.getCredsForCloud (JObj table) D cloud_name
     = Part000.getCredsForCloud (JObj (delete key table)) D cloud_name)
  /\ (forall env, (forall s, cloud_name <> JStr s) ->
      IndexJs.getCredsForCloud (JObj table) (DEFAULT_ACCOUNT_of_env env) cloud_name
        = ret None
      /\ Part000.getCredsForCloud (JObj table) (DEFAULT_ACCOUNT_of_env env) cloud_name
        = ret None).
Proof.
  intros Hk Hplain He.
  assert (Hfalsy : truthy (member (JObj table) key) = false).
  { rewrite member_JObj. destruct (table !! key); [done |].
    by rewrite inherited_plain. }
  destruct (truthy cloud_name) eqn:Hv.
  - split.
    + destruct (getCredsForCloud_no_entry table D cloud_name key Hv Hk Hfalsy)
        as [-> ->].
      destruct (getCredsForCloud_no_entry (delete key table) D cloud_name key Hv Hk)
        as [-> ->]; [| done].
      by rewrite member_absent by (by rewrite ?lookup_delete_eq).
    + intros env Hns.
      destruct (getCredsForCloud_no_entry table (DEFAULT_ACCOUNT_of_env env)
                  cloud_name key Hv Hk Hfalsy) as [-> ->].
      assert (strict_equals (creds_cloud_name (DEFAULT_ACCOUNT_of_env env)) cloud_name
              = false) as ->; [| done].
      destruct (strict_equals _ _) eqn:Heq; [| done].
      apply strict_equals_eq in Heq. cbn in Heq.
      destruct (CLOUD_NAME env) as [d |]; cbn in Heq.
      * by destruct (Hns d).
      * by rewrite <- Heq in Hv.
  - split; [| intros env _].
    + destruct (getCredsForCloud_falsy (JObj table) D _ Hv) as [-> ->].
      by destruct (getCredsForCloud_falsy (JObj (delete key table)) D _ Hv)
        as [-> ->].
    + apply getCredsForCloud_falsy, Hv.
Qed.

(** X12 at a concrete input. *)
Lemma X12_falsy_entries_and_coerced_names_witness :
  let table : gmap string JsVal := {[ "main" := JNull ]} in
  IndexJs.getCredsForCloud (JObj table) main_default (JStr "main")
  = IndexJs.getCredsForCloud (JObj (delete "main" table)) main_default (JStr "main").
Proof.
  intros table.
  exact (proj1 (proj1 (X12_falsy_entries_and_coerced_names table main_default
                         (JStr "main") "main" eq_refl eq_refl eq_refl))).
Defined.

(** ** The configuration read at start-up *)

(** X13: when [CLOUD_NAME] is unset or empty, the default account is never
    selected, whatever [CLOUDINARY_API_KEY] and [CLOUDINARY_API_SECRET]
    hold: over any table, the account selected for a name is made of what
    the lookup finds under the name's key, if that is truthy, and there is
    none otherwise. *)
Theorem X13_default_needs_cloud_name
    (env : Env) (table : gmap string JsVal) (cloud_name : JsVal) (key : string) :
  CLOUD_NAME env = None \/ CLOUD_NAME env = Some "" ->
  ToString cloud_name = ret key ->
  let D := DEFAULT_ACCOUNT_of_env env in
  let entry := member (JObj table) key in
  let selected :=
    if truthy cloud_name && truthy entry
    then Some (mkCreds cloud_name (member entry "api_key")
                       (member entry "api_secret"))
    else None in
  IndexJs.select_creds (JObj table) D cloud_name = ret selected
  /\ Part000.select_creds (JObj table) D cloud_name = ret selected.
Proof.
  intros Henv Hk D entry selected. subst selected.
  assert (HD : truthy (creds_cloud_name D) = false)
    by (subst D; cbn; by destruct Henv as [-> | ->]).
  rewrite select_creds_revisions_agree.
  match goal with |- ?P /\ ?P => enough P by by split end.
  destruct (truthy cloud_name) eqn:Hv; cbn [andb].
  - destruct (getCredsForCloud_lookup (JObj table) D cloud_name key Hv)
      as [Hi _]; try done.
    rewrite (select_creds_found _ _ _ _ Hi). fold entry.
    destruct (truthy entry); [done |].
    destruct (strict_equals _ _) eqn:Heq; [| by rewrite HD].
    apply strict_equals_eq in Heq. by rewrite Heq, Hv in HD.
  - rewrite (select_creds_found _ _ _ None), HD; [done |].
    by apply getCredsForCloud_falsy.
Qed.

(** X13 at a concrete input. *)
Lemma X13_default_needs_cloud_name_witness :
  let env := mkEnv None (Some "") (Some "DK") (Some "DS") in
  IndexJs.select_creds demo_accounts (DEFAULT_ACCOUNT_of_env env) (JStr "other")
  = ret None.
Proof.
  intros env.
  exact (proj1 (X13_default_needs_cloud_name env
                  {[ "demo" := JObj (<[ "api_key" := JStr "K" ]>
                                       {[ "api_secret" := JStr "S" ]}) ]}
                  (JStr "other") "other" (or_intror eq_refl) eq_refl)).
Defined.

(** X14: for every [JSON.parse]: an empty [CLOUDINARY_ACCOUNTS_JSON] is
    treated like an unset one, the text parsed being [{}] in both cases; the
    initialiser logs a line exactly when the parse throws, and then the line
    carries the error's message and the table is empty; a text that parses
    is returned as parsed, whatever kind of value it is. *)
Theorem X14_accounts_initialiser
    (JSON_parse : string -> M JsVal) (env : Env) :
  let text :=
    match CLOUDINARY_ACCOUNTS_JSON env with
    | None | Some "" => "{}"
    | Some t => t
    end in
  (forall parsed, JSON_parse text = ret parsed ->
     ACCOUNTS_of_env JSON_parse env = (parsed, []))
  /\ (forall e, JSON_parse text = throw e ->
     ACCOUNTS_of_env JSON_parse env
     = (JObj ∅, [mkLog "Failed to parse CLOUDINARY_ACCOUNTS_JSON:" (err_message e)]))
  /\ (snd (ACCOUNTS_of_env JSON_parse env) = []
      <-> exists parsed, JSON_parse text = ret parsed).
Proof.
  intros text.
  assert (Htext : ToString (js_or (env_value (CLOUDINARY_ACCOUNTS_JSON env))
                                  (JStr "{}")) = ret text).
  { subst text. destruct (CLOUDINARY_ACCOUNTS_JSON env) as [[| a t] |]; reflexivity. }
  unfold ACCOUNTS_of_env. rewrite Htext. cbn [bind ret].
  split; [| split].
  - by intros parsed ->.
  - by intros e ->.
  - destruct (JSON_parse text) as [e | parsed]; cbn; split; try done.
    + by intros [parsed [=]].
    + by eauto.
Qed.

(** ** Names that every object inherits *)

(** X21: a cloud name that is one of the names every object inherits
    ([constructor], [toString], [__proto__], ...), and for which the table
    has no entry of its own, is found by the lookup all the same: the
    account made for it has neither a key nor a secret, so a request for it
    is answered with the credentials error and nothing is sent, whatever
    default account is configured. *)
Theorem X21_inherited_name_is_refused
    (table : gmap string JsVal) (D : Creds)
    (axios_delete : OutboundCall -> M JsVal) (body : gmap string JsVal)
    (c text : string) :
  truthy (field body "public_id") = true ->
  ToString (field body "public_id") = ret text ->
  field body "cloud_name" = JStr c ->
  named_in Object_prototype_names c = true ->
  table !! c = None ->
  (IndexJs.getCredsForCloud (JObj table) D (JStr c)
     = ret (Some (mkCreds (JStr c) JUndefined JUndefined))
   /\ Part000.getCredsForCloud (JObj table) D (JStr c)
     = ret (Some (mkCreds (JStr c) JUndefined JUndefined)))
  /\ IndexJs.deleteMedia (JObj table) D axios_delete body
     = mkOutcome 400 (error_body IndexJs.credentials_error) [] []
  /\ Part000.deleteMedia (JObj table) D axios_delete body
     = mkOutcome 400 (error_body Part000.credentials_error) [] [].
Proof.
  intros Hpid Htext Hname Hin Habs.
  assert (Hc : c <> "") by (by intros ->).
  assert (Htc : truthy (JStr c) = true) by by apply truthy_JStr.
  destruct (inherited_named c Hin) as [name Hfound].
  assert (Hres : IndexJs.getCredsForCloud (JObj table) D (JStr c)
                   = ret (Some (mkCreds (JStr c) JUndefined JUndefined))
                 /\ Part000.getCredsForCloud (JObj table) D (JStr c)
                   = ret (Some (mkCreds (JStr c) JUndefined JUndefined))).
  { destruct (getCredsForCloud_lookup (JObj table) D (JStr c) c Htc)
      as [-> ->]; try done.
    by rewrite member_JObj, Habs, Hfound. }
  split; [exact Hres |].
  eapply deleteMedia_incomplete; [done | done | |].
  - rewrite derived_cloud_name_explicit, Hname by (by rewrite Hname).
    apply select_creds_found, Hres.
  - cbn. by auto.
Qed.

(** X21 at a concrete input. *)
Lemma X21_inherited_name_is_refused_witness :
  let body : gmap string JsVal :=
    <[ "public_id" := JStr "a/b" ]> {[ "cloud_name" := JStr "toString" ]} in
  IndexJs.deleteMedia demo_accounts main_default upstream_ok body
    = mkOutcome 400 (error_body IndexJs.credentials_error) [] []
  /\ Part000.deleteMedia demo_accounts main_default upstream_ok body
    = mkOutcome 400 (error_body Part000.credentials_error) [] [].
Proof.
  intros body.
  exact (proj2 (X21_inherited_name_is_refused
                  {[ "demo" := JObj (<[ "api_key" := JStr "K" ]>
                                       {[ "api_secret" := JStr "S" ]}) ]}
                  main_default upstream_ok body "toString" "a/b"
                  eq_refl eq_refl eq_refl eq_refl eq_refl)).
Defined.

(** ** Values that do not convert to strings *)

(** X22: a request whose [public_id] is truthy but cannot be converted to a
    string (an object that has a property [toString] of its own, or an array
    that holds one) ends in the [catch] block before any account is looked
    up: the answer is 500 with the fixed body, nothing is sent, and the line
    logged is the message of the conversion's [TypeError].  The same holds
    when a complete account is selected and the resource type or the type
    cannot be converted: the endpoint is never written. *)
Theorem X22_unconvertible_fields_end_in_catch
    (ACCOUNTS : JsVal) (D : Creds) (axios_delete : OutboundCall -> M JsVal)
    (body : gmap string JsVal) :
  truthy (field body "public_id") = true ->
  let failure :=
    mkOutcome 500 (error_body "Failed to delete media") []
      [mkLog "Error deleting media:"
             (JStr "Cannot convert object to primitive value")] in
  ((exists err, ToString (field body "public_id") = throw err) ->
   IndexJs.deleteMedia ACCOUNTS D axios_delete body = failure
   /\ Part000.deleteMedia ACCOUNTS D axios_delete body = failure)
  /\ (forall text c name,
        ToString (field body "public_id") = ret text ->
        IndexJs.select_creds ACCOUNTS D (derived_cloud_name body) = ret (Some c) ->
        complete c ->
        ToString (creds_cloud_name c) = ret name ->
        (exists err, ToString (final_resource_type body) = throw err)
        \/ (exists err, ToString (final_type body) = throw err) ->
        IndexJs.deleteMedia ACCOUNTS D axios_delete body = failure
        /\ Part000.deleteMedia ACCOUNTS D axios_delete body = failure).
Proof.
  intros Hpid failure. subst failure. split.
  - intros [err Hthrow]. pose proof (ToString_throw _ _ Hthrow) as ->.
    unfold IndexJs.deleteMedia, Part000.deleteMedia. by rewrite Hpid, Hthrow.
  - intros text c name Htext Hsel Hc Hname Hthrow.
    destruct (deleteMedia_selected ACCOUNTS D axios_delete body text c
                Hpid Htext Hsel Hc) as [-> ->].
    rewrite dispatch_call_for. unfold endpoint_of. rewrite Hname. cbn [bind ret].
    destruct Hthrow as [[err Hthrow] | [err Hthrow]].
    + pose proof (ToString_throw _ _ Hthrow) as ->. by rewrite Hthrow.
    + pose proof (ToString_throw _ _ Hthrow) as ->. rewrite Hthrow.
      by destruct (ToString (final_resource_type body)) as [e | rt] eqn:Hrt;
        [pose proof (ToString_throw _ _ Hrt) as -> |].
Qed.

(** X22 at a concrete input. *)
Lemma X22_unconvertible_fields_end_in_catch_witness :
  let body : gmap string JsVal :=
    <[ "public_id" := JArr [JStr "a"; JObj {[ "toString" := JNum "1" ]}] ]>
      {[ "cloud_name" := JStr "demo" ]} in
  IndexJs.deleteMedia demo_accounts main_default upstream_ok body
  = mkOutcome 500 (error_body "Failed to delete media") []
      [mkLog "Error deleting media:"
             (JStr "Cannot convert object to primitive value")].
Proof.
  intros body.
  refine (proj1 (proj1 (X22_unconvertible_fields_end_in_catch demo_accounts
                          main_default upstream_ok body eq_refl) _)).
  eexists. reflexivity.
Defined.
(** ** More on [parseFromUrl] *)

Lemma rmatch_group_resource_type {R} rt s caps
    (k : string -> captures -> option R) x :
  rt = "image" \/ rt = "video" ->
  k s (<[2 := rt]> caps) = Some x ->
  rmatch (Group 2 (Alt (lit "image") (lit "video"))) (rt +:+ s) caps k = Some x.
Proof.
  intros [-> | ->] Hk.
  - by apply rmatch_group_lit_l.
  - cbn [rmatch].
    assert (Hfirst : forall k', rmatch (lit "image") ("video" +:+ s) caps k'
                                = @None R) by reflexivity.
    rewrite Hfirst, rmatch_lit, consumed_append. exact Hk.
Qed.

(** The match found where a locator starts. *)
Lemma exec_locator tenant resource_type type rest :
  segment tenant ->
  resource_type = "image" \/ resource_type = "video" ->
  segment type ->
  exec secure_url_pattern (locator tenant resource_type type +:+ rest)
  = Some (<[0 := locator tenant resource_type type]>
            (<[3 := type]> (<[2 := resource_type]> (<[1 := tenant]> ∅)))).
Proof.
  intros [Hne Hocc] Hrt [Hne' Hocc']. apply exec_here.
  unfold locator, secure_url_pattern. rewrite !append_assoc.
  rewrite rmatch_Cat, rmatch_lit, rmatch_Cat.
  apply (rmatch_group_run 1 "/" tenant
           (resource_type +:+ "/" +:+ type +:+ "/" +:+ rest)); [done | done |].
  rewrite rmatch_Cat, rmatch_Chr_eq, rmatch_Cat.
  apply rmatch_group_resource_type; [done |].
  rewrite rmatch_Cat.
  change ("/" +:+ type +:+ "/" +:+ rest) with (String "/" (type +:+ "/" +:+ rest)).
  rewrite rmatch_Chr_eq, rmatch_Cat.
  apply (rmatch_group_run 3 "/" type rest); [done | done |].
  rewrite rmatch_Chr_eq. do 2 f_equal.
  transitivity
    (consumed (("res.cloudinary.com/" +:+ tenant +:+ "/" +:+ resource_type
                +:+ "/" +:+ type +:+ "/") +:+ rest) rest);
    [| apply consumed_append].
  by rewrite !append_assoc.
Qed.

(** X15: what a result of [parseFromUrl] guarantees.  The result is either
    empty, or all three fields are strings, and then the input is a string
    that contains, somewhere, the host [res.cloudinary.com] followed by
    [/<cloud_name>/<resource_type>/<type>/], where [cloud_name] and [type]
    are non-empty and free of slashes and [resource_type] is "image" or
    "video".  No result is ever filled in part. *)
Theorem X15_parse_result_comes_from_locator (secureUrl : JsVal) :
  parseFromUrl secureUrl = empty_parsed
  \/ exists before tenant resource_type type rest,
       secureUrl = JStr (before +:+ locator tenant resource_type type +:+ rest)
       /\ segment tenant
       /\ (resource_type = "image" \/ resource_type = "video")
       /\ segment type
       /\ parseFromUrl secureUrl
          = mkParsed (JStr tenant) (JStr resource_type) (JStr type).
Proof.
  destruct secureUrl as [| | b | r | s | elems | props | p k]; try by left.
  unfold parseFromUrl, String_match.
  destruct (exec secure_url_pattern s) as [m |] eqn:Hm; [right | by left].
  apply exec_sound in Hm as (before & s0 & rest & caps & -> & Hmatch & ->).
  apply matches_secure_url in Hmatch
    as (tenant & rt & type & Ht & Hrt & Hty & -> & ->).
  exists before, tenant, rt, type, rest.
  split; [done |]. split; [done |]. split; [done |]. split; [done |].
  unfold match_elem. by simplify_map_eq.
Qed.

(** X16: every string that contains a locator
    [res.cloudinary.com/<tenant>/<image|video>/<type>/] (with [tenant] and
    [type] non-empty and free of slashes) is parsed to a non-empty result,
    whatever surrounds the locator; and when no [r] occurs before it, as
    after the schemes [https://] and [http://], the result is exactly that
    tenant, resource type and type. *)
Theorem X16_locator_is_parsed
    (before tenant resource_type type rest : string) :
  segment tenant ->
  resource_type = "image" \/ resource_type = "video" ->
  segment type ->
  let url := JStr (before +:+ locator tenant resource_type type +:+ rest) in
  parseFromUrl url <> empty_parsed
  /\ (occurs "r" before = false ->
      parseFromUrl url = mkParsed (JStr tenant) (JStr resource_type) (JStr type)).
Proof.
  intros Ht Hrt Hty url. subst url.
  pose proof (exec_locator tenant resource_type type rest Ht Hrt Hty) as Hhere.
  split.
  - destruct (exec_prefix _ before _ _ Hhere) as [m Hm].
    unfold parseFromUrl, String_match. rewrite Hm.
    apply exec_sound in Hm as (b & s0 & s1 & caps & _ & Hmatch & ->).
    apply matches_secure_url in Hmatch as (t & r & y & _ & _ & _ & _ & ->).
    unfold match_elem. by simplify_map_eq.
  - intros Hocc. unfold parseFromUrl, String_match.
    rewrite exec_secure_url_skip, Hhere by done.
    unfold match_elem. by simplify_map_eq.
Qed.

(** X16 at a concrete input. *)
Lemma X16_locator_is_parsed_witness :
  parseFromUrl (JStr "http://res.cloudinary.com/dvberoxgh/video/private/v1/clip.mp4")
  = mkParsed (JStr "dvberoxgh") (JStr "video") (JStr "private").
Proof.
  refine (proj2 (X16_locator_is_parsed "http://" "dvberoxgh" "video" "private"
                   "v1/clip.mp4" _ (or_intror eq_refl) _) eq_refl);
    (split; [discriminate | reflexivity]).
Defined.

Lemma derive_from_locator cloud_name resource_type type before t rt ty rest :
  truthy cloud_name = false ->
  truthy resource_type = false ->
  truthy type = false ->
  occurs "r" before = false ->
  segment t -> rt = "image" \/ rt = "video" -> segment ty ->
  derive cloud_name (JStr (before +:+ locator t rt ty +:+ rest)) resource_type type
  = (JStr t, JStr rt, JStr ty).
Proof.
  intros Hcn Hrt Hty Hocc Hst Hr Hsty. unfold derive.
  assert (Hurl : truthy (JStr (before +:+ locator t rt ty +:+ rest)) = true).
  { apply truthy_JStr. by destruct before. }
  rewrite Hcn, Hurl. cbn [negb orb andb].
  assert (Hparse : parseFromUrl (JStr (before +:+ locator t rt ty +:+ rest))
                   = mkParsed (JStr t) (JStr rt) (JStr ty)).
  { unfold parseFromUrl, String_match.
    rewrite exec_secure_url_skip, exec_locator by done.
    unfold match_elem. by simplify_map_eq. }
  rewrite Hparse. cbn [parsed_cloud_name parsed_resource_type parsed_type].
  by rewrite !js_or_falsy.
Qed.

(** X17: a request that passes validation and gives neither [cloud_name] nor
    [resource_type] nor [type], but a [secure_url] that leads (with no [r]
    before it) to a locator [res.cloudinary.com/<t>/<image|video>/<ty>/], is
    served from the table entry of [t], when that has a truthy key and
    secret: exactly one outbound request is issued, addressed to [t] with
    the resource type and type read from the URL and authenticated with the
    entry's key and secret. *)
Theorem X17_url_alone_selects_the_table_entry
    (table : gmap string JsVal) (D : Creds)
    (axios_delete : OutboundCall -> M JsVal) (body : gmap string JsVal)
    (before t rt ty rest text : string) (e : JsVal) :
  truthy (field body "public_id") = true ->
  ToString (field body "public_id") = ret text ->
  truthy (field body "cloud_name") = false ->
  truthy (field body "resource_type") = false ->
  truthy (field body "type") = false ->
  field body "secure_url" = JStr (before +:+ locator t rt ty +:+ rest) ->
  occurs "r" before = false ->
  segment t -> rt = "image" \/ rt = "video" -> segment ty ->
  table !! t = Some e ->
  truthy (member e "api_key") = true ->
  truthy (member e "api_secret") = true ->
  let call :=
    mkCall ("https://api.cloudinary.com/v1_1/" +:+ t +:+ "/resources/"
            +:+ rt +:+ "/" +:+ ty)
           (member e "api_key") (member e "api_secret")
           [trim text]
           (shouldInvalidate (field body "invalidate")) in
  calls (IndexJs.deleteMedia (JObj table) D axios_delete body) = [call]
  /\ calls (Part000.deleteMedia (JObj table) D axios_delete body) = [call].
Proof.
  intros Hpid Htext Hcn Hrtf Htyf Hurl Hocc Hst Hr Hsty He Hk Hs call. subst call.
  pose proof (derive_from_locator _ _ _ before t rt ty rest
                Hcn Hrtf Htyf Hocc Hst Hr Hsty) as Hd.
  rewrite <- Hurl in Hd.
  assert (Htt : truthy (JStr t) = true) by (apply truthy_JStr, Hst).
  assert (Hte : truthy e = true) by (apply credential_truthy; by left).
  assert (Hjr : js_or (JStr rt) (JStr "image") = JStr rt)
    by (by destruct Hr as [-> | ->]).
  assert (Hjt : js_or (JStr ty) (JStr "upload") = JStr ty)
    by (apply js_or_truthy, truthy_JStr, Hsty).
  apply (deleteMedia_served (JObj table) D axios_delete body text
           (entry_account (JStr t) e) t rt ty); try done.
  - unfold derived_cloud_name. rewrite Hd.
    by apply (select_creds_entry table D (JStr t) t).
  - unfold final_resource_type. by rewrite Hd, Hjr.
  - unfold final_type. by rewrite Hd, Hjt.
Qed.

(** X17 at a concrete input. *)
Lemma X17_url_alone_selects_the_table_entry_witness :
  let body : gmap string JsVal :=
    <[ "public_id" := JStr "a/b" ]>
      {[ "secure_url" := JStr "https://res.cloudinary.com/demo/video/private/v1/a/b.mp4" ]} in
  calls (Part000.deleteMedia demo_accounts main_default upstream_ok body)
  = [mkCall "https://api.cloudinary.com/v1_1/demo/resources/video/private"
            (JStr "K") (JStr "S") ["a/b"] true].
Proof.
  intros body.
  refine (proj2 (X17_url_alone_selects_the_table_entry
                   {[ "demo" := JObj (<[ "api_key" := JStr "K" ]>
                                        {[ "api_secret" := JStr "S" ]}) ]}
                   main_default upstream_ok body
                   "https://" "demo" "video" "private" "v1/a/b.mp4" "a/b"
                   (JObj (<[ "api_key" := JStr "K" ]> {[ "api_secret" := JStr "S" ]}))
                   eq_refl eq_refl eq_refl eq_refl eq_refl eq_refl eq_refl
                   _ (or_intror eq_refl) _ eq_refl eq_refl eq_refl));
    (split; [discriminate | reflexivity]).
Defined.

(** ** The identifier sent upstream *)

Lemma append_nil_r (s : string) : s +:+ "" = s.
Proof. induction s as [| a s IH]; [done |]. by rewrite string_app_cons, IH. Qed.

Lemma rev_app_append (s acc : string) : String.rev_app s acc = String.rev s +:+ acc.
Proof.
  revert acc. induction s as [| a s IH]; intros acc; [done |].
  unfold String.rev. cbn [String.rev_app].
  rewrite (IH (String a acc)), (IH (String a "")).
  by rewrite append_assoc.
Qed.

Lemma rev_cons a (s : string) : String.rev (String a s) = String.rev s +:+ String a "".
Proof. unfold String.rev at 1. cbn [String.rev_app]. apply rev_app_append. Qed.

Lemma rev_append (a b : string) : String.rev (a +:+ b) = String.rev b +:+ String.rev a.
Proof.
  induction a as [| x a IH].
  - by rewrite string_app_nil, append_nil_r.
  - by rewrite string_app_cons, !rev_cons, IH, append_assoc.
Qed.

Lemma rev_involutive (s : string) : String.rev (String.rev s) = s.
Proof.
  induction s as [| a s IH]; [done |].
  by rewrite rev_cons, rev_append, IH.
Qed.

Lemma length_rev (s : string) : String.length (String.rev s) = String.length s.
Proof.
  induction s as [| a s IH]; [done |].
  rewrite rev_cons, length_append, IH. simpl. lia.
Qed.

Lemma strip_prefix_Some p s rest : strip_prefix p s = Some rest -> s = p +:+ rest.
Proof.
  revert s. induction p as [| a p IH]; intros s; simpl.
  - by intros [= ->].
  - destruct s as [| b s]; [discriminate |].
    destruct (Ascii.eqb a b) eqn:Hab; [| discriminate].
    apply Ascii.eqb_eq in Hab as ->. intros H%IH. by rewrite string_app_cons, H.
Qed.

Lemma strip_prefix_append p s rest more :
  strip_prefix p s = Some rest -> strip_prefix p (s +:+ more) = Some (rest +:+ more).
Proof.
  revert s. induction p as [| a p IH]; intros s; simpl.
  - by intros [= ->].
  - destruct s as [| b s]; [discriminate |]. rewrite string_app_cons.
    destruct (Ascii.eqb a b); [apply IH | discriminate].
Qed.

(** What [skip_one] removes is one of the given strings. *)
Lemma skip_one_Some spaces s rest :
  skip_one spaces s = Some rest -> exists w, In w spaces /\ s = w +:+ rest.
Proof.
  induction spaces as [| w spaces IH]; simpl; [discriminate |].
  destruct (strip_prefix w s) as [r |] eqn:Hw.
  - intros [= ->]. exists w. split; [by left | by apply strip_prefix_Some].
  - intros (w' & Hin & ->)%IH. exists w'. by auto.
Qed.

(** A string that starts with one of the given strings still does when it
    is extended. *)
Lemma skip_one_append spaces s rest more :
  skip_one spaces s = Some rest -> skip_one spaces (s +:+ more) <> None.
Proof.
  induction spaces as [| w spaces IH]; simpl; [discriminate |].
  destruct (strip_prefix w s) as [r |] eqn:Hw.
  - intros _. by rewrite (strip_prefix_append _ _ _ more Hw).
  - intros H%IH. by destruct (strip_prefix w (s +:+ more)).
Qed.

Lemma skip_all_none spaces fuel s :
  Forall (fun w => w <> "") spaces ->
  String.length s <= fuel ->
  skip_one spaces (skip_all spaces fuel s) = None.
Proof.
  intros Hne. revert s. induction fuel as [| fuel IH]; intros s Hlen; simpl.
  - destruct s; [| simpl in Hlen; lia].
    clear Hlen. induction Hne as [| w spaces Hw _ IHs]; simpl; [done |].
    by destruct w.
  - destruct (skip_one spaces s) as [rest |] eqn:Hs; [| done].
    apply IH. apply skip_one_Some in Hs as (w & Hin & ->).
    rewrite length_append in Hlen.
    assert (w <> "") by (by eapply Forall_forall in Hne; [| apply list_elem_of_In]).
    destruct w; [done |]. simpl in Hlen. lia.
Qed.

Lemma skip_all_split spaces fuel s :
  exists removed, s = removed +:+ skip_all spaces fuel s.
Proof.
  revert s. induction fuel as [| fuel IH]; intros s; simpl; [by exists "" |].
  destruct (skip_one spaces s) as [rest |] eqn:Hs; [| by exists ""].
  apply skip_one_Some in Hs as (w & _ & ->).
  destruct (IH rest) as [removed Hrest]. exists (w +:+ removed).
  by rewrite append_assoc, <- Hrest.
Qed.

Lemma skip_all_fixed spaces fuel s :
  skip_one spaces s = None -> skip_all spaces fuel s = s.
Proof. intros Hs. destruct fuel; simpl; [done | by rewrite Hs]. Qed.

Lemma white_space_not_empty :
  Forall (fun w => w <> "") white_space
  /\ Forall (fun w => w <> "") (String.rev <$> white_space).
Proof. vm_compute. split; repeat constructor; discriminate. Qed.

Lemma trimStart_no_space s : starts_with_space (trimStart s) = false.
Proof.
  unfold starts_with_space, trimStart.
  by rewrite skip_all_none; [| apply white_space_not_empty |].
Qed.

Lemma trimEnd_no_space s : ends_with_space (trimEnd s) = false.
Proof.
  unfold ends_with_space, trimEnd. rewrite rev_involutive.
  rewrite skip_all_none; [done | apply white_space_not_empty |].
  by rewrite length_rev.
Qed.

(** What [trimEnd] leaves is the front of what it was given. *)
Lemma trimEnd_prefix s : exists removed, s = trimEnd s +:+ removed.
Proof.
  unfold trimEnd.
  destruct (skip_all_split (String.rev <$> white_space) (String.length s) (String.rev s))
    as [removed Hsplit].
  exists (String.rev removed).
  apply (f_equal String.rev) in Hsplit.
  by rewrite rev_involutive, rev_append in Hsplit.
Qed.

Lemma trim_no_space s :
  starts_with_space (trim s) = false /\ ends_with_space (trim s) = false.
Proof.
  unfold trim. split; [| apply trimEnd_no_space].
  pose proof (trimStart_no_space s) as Hstart.
  destruct (trimEnd_prefix (trimStart s)) as [removed Hsplit].
  unfold starts_with_space in *.
  destruct (skip_one white_space (trimEnd (trimStart s))) as [rest |] eqn:Hs; [| done].
  apply (skip_one_append _ _ _ removed) in Hs. rewrite <- Hsplit in Hs.
  by destruct (skip_one white_space (trimStart s)).
Qed.

Lemma trim_fixed s :
  starts_with_space s = false -> ends_with_space s = false -> trim s = s.
Proof.
  unfold starts_with_space, ends_with_space, trim, trimStart, trimEnd.
  intros Hs He.
  destruct (skip_one white_space s) eqn:Hs'; [done |].
  rewrite (skip_all_fixed _ _ _ Hs').
  destruct (skip_one (String.rev <$> white_space) (String.rev s)) eqn:He'; [done |].
  by rewrite (skip_all_fixed _ _ _ He'), rev_involutive.
Qed.

(** X18: the identifier that goes into [public_ids] is the string
    conversion of the [public_id] received with the white space at both ends
    removed (all the characters the language counts as white space or line
    terminators, not only the ASCII ones).  A request that is served issues
    one outbound request, with exactly that identifier, and no outbound
    request of either revision carries another one; it never starts or ends
    with white space, trimming it again changes nothing, and a [public_id]
    that has no white space at either end is sent as it is. *)
Theorem X18_public_id_is_sent_trimmed
    (ACCOUNTS : JsVal) (D : Creds) (axios_delete : OutboundCall -> M JsVal)
    (body : gmap string JsVal) (received : string) :
  truthy (field body "public_id") = true ->
  ToString (field body "public_id") = ret received ->
  let sent := trim received in
  (forall c name resource_type type,
     IndexJs.select_creds ACCOUNTS D (derived_cloud_name body) = ret (Some c) ->
     complete c ->
     ToString (creds_cloud_name c) = ret name ->
     ToString (final_resource_type body) = ret resource_type ->
     ToString (final_type body) = ret type ->
     exists call,
       calls (IndexJs.deleteMedia ACCOUNTS D axios_delete body) = [call]
       /\ calls (Part000.deleteMedia ACCOUNTS D axios_delete body) = [call]
       /\ data_public_ids call = [sent])
  /\ (forall call,
        In call (calls (IndexJs.deleteMedia ACCOUNTS D axios_delete body))
        \/ In call (calls (Part000.deleteMedia ACCOUNTS D axios_delete body)) ->
        data_public_ids call = [sent])
  /\ starts_with_space sent = false
  /\ ends_with_space sent = false
  /\ trim sent = sent
  /\ (starts_with_space received = false -> ends_with_space received = false ->
      sent = received).
Proof.
  intros Hpid Hreceived sent. subst sent.
  destruct (trim_no_space received) as [Hs He].
  split; [| split; [| split; [done |]; split; [done |]; split;
                      [by apply trim_fixed | by apply trim_fixed]]].
  - intros c name rt ty Hsel Hc Hn Hrt Hty.
    destruct (deleteMedia_served ACCOUNTS D axios_delete body received c name rt ty
                Hpid Hreceived Hsel Hc Hn Hrt Hty) as [Hi Hp].
    eexists. split; [exact Hi |]. split; [exact Hp | done].
  - intros call Hin.
    assert (Hrun : exists text c,
              ToString (field body "public_id") = ret text
              /\ call_for body (trim text) c = ret call).
    { destruct Hin as [Hin | Hin].
      - eapply run_cases_calls in Hin as (_ & text & c & Htext & _ & _ & Hcall & _);
          [| apply IndexJs_run_cases]. by exists text, c.
      - eapply run_cases_calls in Hin as (_ & text & c & Htext & _ & _ & Hcall & _);
          [| apply Part000_run_cases]. by exists text, c. }
    destruct Hrun as (text & c & Htext & Hcall).
    rewrite Hreceived in Htext. injection Htext as <-.
    by apply call_for_shape in Hcall as (name & rt & ty & _ & _ & _ & ->).
Qed.

(** X18 at a concrete input: a no-break space in front, a line separator
    and spaces behind. *)
Lemma X18_public_id_is_sent_trimmed_witness :
  let received := utf8 160 +:+ " folder/my file" +:+ utf8 8232 +:+ "  " in
  let body : gmap string JsVal :=
    <[ "public_id" := JStr received ]> {[ "cloud_name" := JStr "demo" ]} in
  exists call,
    calls (IndexJs.deleteMedia demo_accounts no_default upstream_ok body) = [call]
    /\ calls (Part000.deleteMedia demo_accounts no_default upstream_ok body) = [call]
    /\ data_public_ids call = ["folder/my file"].
Proof.
  intros received body.
  exact (proj1 (X18_public_id_is_sent_trimmed demo_accounts no_default upstream_ok
                  body received eq_refl eq_refl)
           (mkCreds (JStr "demo") (JStr "K") (JStr "S")) "demo" "image" "upload"
           eq_refl (conj eq_refl (conj eq_refl eq_refl)) eq_refl eq_refl eq_refl).
Defined.

(** ** The single-account server *)

(** X19: the older single-account handler refuses exactly the requests the
    multi-account revisions refuse for a missing [public_id], with the same
    answer.  Every other request reaches [cloudinary.uploader.destroy]
    exactly once, with the [public_id] as received (neither converted to a
    string nor trimmed); the result is relayed with status 200, and a
    failure is answered 500 with the fixed body while the error itself is
    logged. *)
Theorem X19_single_account_handler
    (destroy : JsVal -> M JsVal) (ACCOUNTS : JsVal) (D : Creds)
    (axios_delete : OutboundCall -> M JsVal) (body : gmap string JsVal) :
  let old := Legacy.deleteMedia destroy body in
  let refusal := mkOutcome 400 (error_body "public_id is required") [] [] in
  (old = Legacy.mkOutcome 400 (error_body "public_id is required") [] []
   <-> IndexJs.deleteMedia ACCOUNTS D axios_delete body = refusal)
  /\ (old = Legacy.mkOutcome 400 (error_body "public_id is required") [] []
   <-> Part000.deleteMedia ACCOUNTS D axios_delete body = refusal)
  /\ (Legacy.status old = 400 /\ Legacy.destroyed old = []
      \/ Legacy.destroyed old = [field body "public_id"]
         /\ truthy (field body "public_id") = true
         /\ ((exists result, destroy (field body "public_id") = ret result
                             /\ old = Legacy.mkOutcome 200 result
                                        [field body "public_id"] [])
             \/ (exists err, destroy (field body "public_id") = throw err
                             /\ old = Legacy.mkOutcome 500
                                        (error_body "Failed to delete media")
                                        [field body "public_id"] [err]))).
Proof.
  intros old refusal. subst old refusal.
  assert (Hold : Legacy.deleteMedia destroy body
                 = Legacy.mkOutcome 400 (error_body "public_id is required") [] []
                 <-> truthy (field body "public_id") = false).
  { unfold Legacy.deleteMedia.
    destruct (truthy (field body "public_id")); cbn [negb]; [| done].
    split; [| done]. by destruct (destroy _). }
  split; [| split].
  - rewrite Hold. split.
    + intros H. unfold IndexJs.deleteMedia. by rewrite H.
    + eapply run_cases_required; [| apply IndexJs_run_cases].
      unfold IndexJs.credentials_error. discriminate.
  - rewrite Hold. split.
    + intros H. unfold Part000.deleteMedia. by rewrite H.
    + eapply run_cases_required; [| apply Part000_run_cases].
      unfold Part000.credentials_error. discriminate.
  - unfold Legacy.deleteMedia.
    destruct (truthy (field body "public_id")); cbn [negb]; [right | by left].
    split; [by destruct (destroy _) |]. split; [done |].
    destruct (destroy _) as [err | result]; [right | left]; by eauto.
Qed.

(** ** Single-account use *)

(** X20: a request that passes validation and ends up without a cloud name
    (none given, and none derived from a URL) never reads the table and is
    served from the environment alone.  If [CLOUD_NAME],
    [CLOUDINARY_API_KEY] and [CLOUDINARY_API_SECRET] are all set and not
    empty, exactly one outbound request is issued, addressed to [CLOUD_NAME]
    and authenticated with that key and secret; if one of them is unset or
    empty, the answer is the credentials error and nothing is sent. *)
Theorem X20_nameless_request_served_from_env
    (env : Env) (ACCOUNTS : JsVal) (axios_delete : OutboundCall -> M JsVal)
    (body : gmap string JsVal) (text : string) :
  truthy (field body "public_id") = true ->
  ToString (field body "public_id") = ret text ->
  truthy (derived_cloud_name body) = false ->
  let D := DEFAULT_ACCOUNT_of_env env in
  (forall name key secret,
     CLOUD_NAME env = Some name -> name <> "" ->
     CLOUDINARY_API_KEY env = Some key -> key <> "" ->
     CLOUDINARY_API_SECRET env = Some secret -> secret <> "" ->
     forall resource_type type,
       ToString (final_resource_type body) = ret resource_type ->
       ToString (final_type body) = ret type ->
       let call :=
         mkCall ("https://api.cloudinary.com/v1_1/" +:+ name +:+ "/resources/"
                 +:+ resource_type +:+ "/" +:+ type)
                (JStr key) (JStr secret)
                [trim text]
                (shouldInvalidate (field body "invalidate")) in
       calls (IndexJs.deleteMedia ACCOUNTS D axios_delete body) = [call]
       /\ calls (Part000.deleteMedia ACCOUNTS D axios_delete body) = [call])
  /\ (truthy (env_value (CLOUD_NAME env)) = false
      \/ truthy (env_value (CLOUDINARY_API_KEY env)) = false
      \/ truthy (env_value (CLOUDINARY_API_SECRET env)) = false ->
      IndexJs.deleteMedia ACCOUNTS D axios_delete body
        = mkOutcome 400 (error_body IndexJs.credentials_error) [] []
      /\ Part000.deleteMedia ACCOUNTS D axios_delete body
        = mkOutcome 400 (error_body Part000.credentials_error) [] []).
Proof.
  intros Hpid Htext Hname D.
  assert (Hsel : IndexJs.select_creds ACCOUNTS D (derived_cloud_name body)
                 = ret (if truthy (creds_cloud_name D) then Some D else None)).
  { rewrite (select_creds_found _ _ _ None); [done |].
    by apply getCredsForCloud_falsy. }
  split.
  - intros name key secret Hn Hne Hk Hke Hs Hse rt ty Hrt Hty call. subst call.
    assert (Htn : truthy (JStr name) = true) by by apply truthy_JStr.
    assert (Htk : truthy (JStr key) = true) by by apply truthy_JStr.
    assert (Hts : truthy (JStr secret) = true) by by apply truthy_JStr.
    subst D. unfold DEFAULT_ACCOUNT_of_env in *. rewrite Hn, Hk, Hs in *.
    cbn [env_value creds_cloud_name] in *. rewrite Htn in Hsel.
    by apply (deleteMedia_served ACCOUNTS _ axios_delete body text
                (mkCreds (JStr name) (JStr key) (JStr secret)) name rt ty).
  - intros Hmissing.
    eapply deleteMedia_incomplete; [done | done | exact Hsel |].
    destruct (truthy (creds_cloud_name D)) eqn:HD; [| done].
    subst D. cbn in *. destruct Hmissing as [H | [H | H]]; [congruence | by auto..].
Qed.

(** X20 at a concrete input. *)
Lemma X20_nameless_request_served_from_env_witness :
  let env := mkEnv None (Some "main") (Some "DK") (Some "DS") in
  let body : gmap string JsVal := {[ "public_id" := JStr "a/b" ]} in
  calls (IndexJs.deleteMedia JNull (DEFAULT_ACCOUNT_of_env env) upstream_ok body)
  = [mkCall "https://api.cloudinary.com/v1_1/main/resources/image/upload"
            (JStr "DK") (JStr "DS") ["a/b"] true].
Proof.
  intros env body.
  exact (proj1 (proj1 (X20_nameless_request_served_from_env env JNull upstream_ok
                         body "a/b" eq_refl eq_refl eq_refl)
                  "main" "DK" "DS" eq_refl ltac:(discriminate) eq_refl
                  ltac:(discriminate) eq_refl ltac:(discriminate)
                  "image" "upload" eq_refl eq_refl)).
Defined.
